(** * Wallet dashboard backend: query component and HTTP routes

    A shallow embedding of the tenant-ui backend of digi-cred-traction:
    the PostgreSQL query component (formatKind, getAllItems,
    countItemsByKind, countItemsByCategory, getItemById, getTableData,
    getAllItemsFromPublicSchema, ...), the older MySQL query component
    (getAllItems, getItemById) and the Express routes of router.ts.

    Conventions of the embedding.
    - A JavaScript string is a [string]: a character is its code, taken
      below 256.  The two regular expressions of the source only test codes
      against ASCII ranges, so a code above 127 stands for any character
      outside ASCII.
    - A JavaScript number that holds an integer is a [Z].  Kind codes and row
      counts stay far inside the range where a double is exact and where
      [String(n)] is the plain decimal numeral.
    - A function that can [throw] returns an [outcome].
    - SQL text sent through [pool.query] is kept as text (it is what the
      server receives, here with runs of white space written as one space);
      its relational meaning is given next to it with the clauses of module
      [Pg]. *)

From Stdlib Require Import ZArith Ascii String.
From Stdlib.Strings Require Import Byte.
From stdpp Require Import base list strings gmap sorting pretty.

Local Open Scope Z_scope.

(** ** JavaScript values and operators used by the source *)

Module Js.

(** [new Error(message)]: the value carried by [throw]. *)
Record error := Error { message : string; stack : string }.

(** Result of a call that either returns or throws. *)
Inductive outcome (A : Type) : Type :=
| Returned (a : A)
| Thrown (e : error).
Arguments Returned {A} a.
Arguments Thrown {A} e.

(** A string is truthy unless it is empty. *)
Definition truthy (s : string) : bool :=
  match s with
  | EmptyString => false
  | String _ _ => true
  end.

(** [v || d] where [v] is a string, [null] or [undefined] ([None]). *)
Definition or_else (v : option string) (d : string) : string :=
  match v with
  | Some s => if truthy s then s else d
  | None => d
  end.

(** [s.replace(/[^CLASS]/g, '')]: every character outside the class is
    replaced by the empty string, all others are kept in order. *)
Fixpoint remove_outside (class : ascii → bool) (s : string) : string :=
  match s with
  | EmptyString => EmptyString
  | String c rest =>
      if class c then String c (remove_outside class rest)
      else remove_outside class rest
  end.

Definition in_range (lo hi : N) (c : ascii) : bool :=
  ((lo <=? N_of_ascii c) && (N_of_ascii c <=? hi))%N.

(** The class [a-zA-Z0-9_]. *)
Definition is_identifier_char (c : ascii) : bool :=
  in_range 97 122 c || in_range 65 90 c || in_range 48 57 c
  || (N_of_ascii c =? 95)%N.

(** The class [\x20-\x7E]. *)
Definition is_printable (c : ascii) : bool := in_range 32 126 c.

(** A JavaScript number: an integer or [NaN]. *)
Inductive number := Int (z : Z) | NaN.

(** Value of a character as a digit in the given radix (10 or 16). *)
Definition digit_value (radix : Z) (c : ascii) : option Z :=
  let n := Z.of_N (N_of_ascii c) in
  if in_range 48 57 c then Some (n - 48)
  else if (radix =? 16) && in_range 97 102 c then Some (n - 87)
  else if (radix =? 16) && in_range 65 70 c then Some (n - 55)
  else None.

(** The digits [parseInt] consumes: the longest prefix of digits of the
    radix, accumulated left to right. *)
Fixpoint parse_digits (radix acc : Z) (s : string) : Z :=
  match s with
  | EmptyString => acc
  | String c rest =>
      match digit_value radix c with
      | Some d => parse_digits radix (radix * acc + d) rest
      | None => acc
      end
  end.

(** White space skipped by [parseInt] (the ASCII part of it). *)
Definition is_space (c : ascii) : bool :=
  in_range 9 13 c || (N_of_ascii c =? 32)%N.

Fixpoint skip_spaces (s : string) : string :=
  match s with
  | String c rest => if is_space c then skip_spaces rest else s
  | EmptyString => s
  end.

(** [NaN] when the text does not start with a digit of the radix. *)
Definition parse_radix (radix : Z) (s : string) : number :=
  match s with
  | String c _ =>
      match digit_value radix c with
      | Some _ => Int (parse_digits radix 0 s)
      | None => NaN
      end
  | EmptyString => NaN
  end.

(** After the sign: a [0x] or [0X] prefix selects radix 16. *)
Definition parse_unsigned (s : string) : number :=
  match s with
  | String "0" (String "x" rest) | String "0" (String "X" rest) =>
      parse_radix 16 rest
  | _ => parse_radix 10 s
  end.

(** [parseInt(s)] with no radix argument: white space, an optional sign,
    an optional hexadecimal prefix, then the digits. *)
Definition parseInt (s : string) : number :=
  match skip_spaces s with
  | String "-" rest =>
      match parse_unsigned rest with
      | Int z => Int (- z)
      | NaN => NaN
      end
  | String "+" rest => parse_unsigned rest
  | t => parse_unsigned t
  end.

(** The characters 0 to 9, and the texts made of them. *)
Definition is_digit (c : ascii) : bool := in_range 48 57 c.

Fixpoint all_digits (s : string) : bool :=
  match s with
  | EmptyString => true
  | String c rest => is_digit c && all_digits rest
  end.

(** [`${n}`] for an integer-valued number. *)
Definition to_string (n : Z) : string := pretty n.

End Js.

Import Js.

(** ** PostgreSQL: the built-in functions and clauses of the queries *)

Module Pg.

(** A [bytea] value. *)
Definition bytea := list byte.

(** A value as the driver hands it over or takes it as a parameter. *)
Inductive sql_value :=
| SqlNull
| SqlNumber (n : number)
| SqlText (s : string)
| SqlBytes (b : bytea).

(** A row of a relation whose columns the program does not name. *)
Definition raw_row := list (string * sql_value).

Definition hex_digit (n : N) : ascii :=
  (if n <? 10 then ascii_of_N (48 + n) else ascii_of_N (87 + n))%N.

(** [encode(b, 'hex')]: two lower-case digits per byte, high nibble
    first. *)
Fixpoint encode_hex (b : bytea) : string :=
  match b with
  | [] => EmptyString
  | x :: rest =>
      String (hex_digit (Byte.to_N x / 16))
        (String (hex_digit (Byte.to_N x mod 16)) (encode_hex rest))
  end.

Definition octal_digit (n : N) : ascii := ascii_of_N (48 + n).

(** [encode(b, 'escape')]: a zero byte or a byte with the high bit set
    becomes a backslash and three octal digits, a backslash is doubled,
    every other byte stands for itself. *)
Fixpoint encode_escape (b : bytea) : string :=
  match b with
  | [] => EmptyString
  | x :: rest =>
      let n := Byte.to_N x in
      if ((n =? 0) || (128 <=? n))%N then
        String "\" (String (octal_digit (n / 64))
          (String (octal_digit (n / 8 mod 8))
            (String (octal_digit (n mod 8)) (encode_escape rest))))
      else if (n =? 92)%N then
        String "\" (String "\" (encode_escape rest))
      else String (ascii_of_N n) (encode_escape rest)
  end.

(** A [bigint] reaches JavaScript as its decimal text. *)
Definition int8_text (n : Z) : string := pretty n.

(** [COUNT( * )] over a group. *)
Definition count_star {A} (group : list A) : Z := Z.of_nat (length group).

(** [GROUP BY key]: one group per distinct key, holding the rows that
    have it (in table order, the sequence in which [array_agg] collects
    them when the table is scanned). *)
Definition group_by {A K} `{EqDecision K} (key : A → K) (rows : list A)
  : list (K * list A) :=
  (λ k, (k, filter (λ r, key r = k) rows)) <$> remove_dups (key <$> rows).

(** [ORDER BY]: the rows sorted by the given order.  Rows that the order
    does not tell apart may come back in any sequence; the sort fixes one,
    and no property below depends on it. *)
Definition order_by {A} (le : relation A) `{∀ x y, Decision (le x y)}
  (rows : list A) : list A :=
  merge_sort le rows.

(** Text comparison on two values of which either may be NULL: ascending
    order puts NULL last. *)
Definition text_le (a b : option string) : Prop :=
  match a, b with
  | _, None => True
  | None, Some _ => False
  | Some x, Some y => String.leb x y = true
  end.

Global Instance text_le_dec a b : Decision (text_le a b).
Proof. destruct a, b; simpl; apply _. Defined.

(** [LIMIT n], the parameter being read as a [bigint]: a value that is
    not a number, or that lies outside the range of the type, or that is
    negative, is refused. *)
Definition limit {A} (n : number) (rows : list A) : outcome (list A) :=
  match n with
  | Int z =>
      if z <? 0 then Thrown (Error "LIMIT must not be negative" EmptyString)
      else if 9223372036854775807 <? z then
        Thrown (Error "value is out of range for type bigint" EmptyString)
      else Returned (take (Z.to_nat z) rows)
  | NaN => Thrown (Error "invalid input syntax for type bigint" EmptyString)
  end.

End Pg.

Import Pg.

(** ** Data model *)

(** A row of [postgres.items].  The binary columns may hold NULL. *)
Module Item.
Record t := Make {
  id : Z;
  kind : Z;
  profile_id : Z;
  category : option bytea;
  name : option bytea;
  value : option bytea
}.
End Item.

(** A row of [postgres.profiles]: its key and the attributes the program
    never interprets. *)
Module Profile.
Record t := Make { id : Z; attributes : raw_row }.
End Profile.

(** Contents of the database the program reads. *)
Record database := MkDatabase {
  items : list Item.t;
  profiles : list Profile.t;
  config : list raw_row;
  (** relations of schema [postgres] by name, as [SELECT *] sees them *)
  relations : string → option (list raw_row);
  (** [pg_tables] restricted to schema [public], ordered by name *)
  public_tables : list string;
  (** [information_schema.columns] of a table of schema [public] *)
  columns : string → list raw_row
}.

(** A JSON value. *)
Local Unset Elimination Schemes.
Inductive json :=
| JNull
| JNum (n : Z)
| JStr (s : string)
| JArr (elements : list json)
| JObj (fields : list (string * json)).
Local Set Elimination Schemes.

(** What leaves the process, in order: statements sent to the database
    server, calls of the e-mail collaborator, HTTP responses and errors handed
    to the next Express handler. *)
Inductive event :=
| Query (text : string) (params : list sql_value)
| EmailCall (body : gmap string json)
| Respond (status : Z) (body : json)
| Next (e : error).

(** A computation with effects: the events it emitted and how it ended. *)
Definition io (A : Type) : Type := list event * outcome A.

Global Instance io_ret : MRet io := λ A a, ([], Returned a).
Global Instance io_bind : MBind io := λ A B k m,
  match m with
  | (evs, Returned a) => let '(evs', r) := k a in (evs ++ evs', r)
  | (evs, Thrown e) => (evs, Thrown e)
  end.

Definition throw {A} (e : error) : io A := ([], Thrown e).

(** [try { body } catch (error) { handler(error) }] with effects. *)
Definition try_io {A} (body : io A) (handler : error → io A) : io A :=
  match body with
  | (evs, Returned a) => (evs, Returned a)
  | (evs, Thrown e) => let '(evs', r) := handler e in (evs ++ evs', r)
  end.

(** The connection pool: the database behind it, and the failure (if any)
    with which the server or the connection answers a given statement. *)
Record pool := Pool {
  fault : string → list sql_value → option error;
  db : database
}.

(** [await pool.query(text, params)]: the statement is sent; it throws the
    fault if there is one, else yields what the statement denotes. *)
Definition pool_query {R} (p : pool) (text : string) (params : list sql_value)
  (meaning : database → outcome (list R)) : io (list R) :=
  ([Query text params],
   match fault p text params with
   | Some e => Thrown e
   | None => meaning (db p)
   end).

(** ** The query component on PostgreSQL *)

Module PgComponent.

(** [process.env.NAME || fallback] *)
Definition env_or (env : gmap string string) (name fallback : string)
  : string :=
  or_else (env !! name) fallback.

(** [dbConfig.database] *)
Definition dbConfig_database (env : gmap string string) : string :=
  env_or env "POSTGRESQL_DB" "askar-wallet".

(** *** formatKind *)

(** [const kinds: Record<number, string> = { 1: 'Connection', ... }] *)
Definition kinds : gmap Z string :=
  <[1 := "Connection"]> (<[2 := "Credential"]> (<[3 := "Message"]>
  (<[4 := "Key"]> (<[5 := "Proof"]> ∅)))).

(** [return kinds[kind] || `Type ${kind}`;] *)
Definition formatKind (kind : Z) : string :=
  or_else (kinds !! kind) ("Type " +:+ to_string kind).

(** *** getAllItems *)

(** A row of the first query: the columns it selects. *)
Record item_row := ItemRow {
  row_id : Z;
  row_kind : Z;
  row_profile_id : Z;
  row_category_hex : option string;
  row_name_text : option string;
  row_value_text : option string
}.

(** An element of the array [getAllItems] returns. *)
Record formatted_item := FormattedItem {
  id : Z;
  kind : string;
  profile_id : Z;
  category : option string;
  name : string;
  value : string
}.

Definition items_text : string :=
  "SELECT id, kind, profile_id, encode(category, 'hex') as category_hex, encode(name, 'escape') as name_text, encode(value, 'escape') as value_text FROM postgres.items".

Definition select_item (i : Item.t) : item_row :=
  {| row_id := Item.id i;
     row_kind := Item.kind i;
     row_profile_id := Item.profile_id i;
     row_category_hex := encode_hex <$> Item.category i;
     row_name_text := encode_escape <$> Item.name i;
     row_value_text := encode_escape <$> Item.value i |}.

Definition items_meaning (d : database) : outcome (list item_row) :=
  Returned (select_item <$> items d).

Definition format_item (item : item_row) : formatted_item :=
  {| id := row_id item;
     kind := formatKind (row_kind item);
     profile_id := row_profile_id item;
     category := row_category_hex item;
     name := or_else (row_name_text item) "[Binary data]";
     value := or_else (row_value_text item) "[Binary data]" |}.

Definition getAllItems (p : pool) : io (list formatted_item) :=
  try_io
    (rows ← pool_query p items_text [] items_meaning;
     mret (format_item <$> rows))
    (λ error, throw error).

(** *** countItemsByCategory *)

(** A row of the common table expression [item_data]. *)
Record item_data := ItemData {
  data_category_hex : option string;
  data_name_text : option string;
  data_value_text : option string;
  data_kind : Z;
  data_id : Z
}.

(** A row of the grouped query. *)
Record category_row := CategoryRow {
  cat_category_hex : option string;
  cat_name_text : option string;
  cat_count : Z;
  cat_kind : Z;
  cat_item_ids : list Z
}.

(** An element of the array [countItemsByCategory] returns. *)
Record category_summary := CategorySummary {
  category_hex : option string;
  credential_type : string;
  count : number;
  summary_kind : string;
  item_ids : list Z
}.

Definition categories_text : string :=
  "WITH item_data AS (SELECT encode(category, 'hex') as category_hex, encode(name, 'escape') as name_text, encode(value, 'escape') as value_text, kind, id FROM postgres.items) SELECT category_hex, name_text, COUNT(*) as count, kind, array_agg(id) as item_ids FROM item_data GROUP BY category_hex, name_text, kind ORDER BY count DESC, category_hex".

Definition to_item_data (i : Item.t) : item_data :=
  {| data_category_hex := encode_hex <$> Item.category i;
     data_name_text := encode_escape <$> Item.name i;
     data_value_text := encode_escape <$> Item.value i;
     data_kind := Item.kind i;
     data_id := Item.id i |}.

(** [GROUP BY category_hex, name_text, kind] *)
Definition category_key (r : item_data) : option string * option string * Z :=
  (data_category_hex r, data_name_text r, data_kind r).

(** The select list over one group. *)
Definition category_aggregate
  (g : (option string * option string * Z) * list item_data) : category_row :=
  {| cat_category_hex := g.1.1.1;
     cat_name_text := g.1.1.2;
     cat_count := count_star g.2;
     cat_kind := g.1.2;
     cat_item_ids := data_id <$> g.2 |}.

(** [ORDER BY count DESC, category_hex] *)
Definition category_order (a b : category_row) : Prop :=
  cat_count b < cat_count a
  ∨ (cat_count a = cat_count b
     ∧ text_le (cat_category_hex a) (cat_category_hex b)).

Global Instance category_order_dec a b : Decision (category_order a b).
Proof. unfold category_order. apply _. Defined.

Definition categories_meaning (d : database) : outcome (list category_row) :=
  Returned
    (order_by category_order
       (category_aggregate <$> group_by category_key (to_item_data <$> items d))).

(** The label computed in the callback of [result.rows.map]. *)
Definition credentialType (name_text : option string) : string :=
  match name_text with
  | Some text =>
      if truthy text && (0 <? Z.of_nat (String.length text)) then
        let cleanedText := remove_outside is_printable text in
        if 0 <? Z.of_nat (String.length cleanedText) then cleanedText
        else "Unknown"
      else "Unknown"
  | None => "Unknown"
  end.

Definition format_category (row : category_row) : category_summary :=
  {| category_hex := cat_category_hex row;
     credential_type := credentialType (cat_name_text row);
     count := parseInt (int8_text (cat_count row));
     summary_kind := formatKind (cat_kind row);
     item_ids := cat_item_ids row |}.

Definition countItemsByCategory (p : pool) : io (list category_summary) :=
  try_io
    (rows ← pool_query p categories_text [] categories_meaning;
     mret (format_category <$> rows))
    (λ error, throw error).

(** *** getItemsByProfileAndKind *)

(** A result row, as delivered: the count is a [bigint]. *)
Record analysis_row := AnalysisRow {
  analysis_profile_id : Z;
  analysis_kind : Z;
  analysis_count : string
}.

Definition analysis_text : string :=
  "SELECT p.id as profile_id, i.kind, COUNT(*) as count FROM postgres.items i JOIN postgres.profiles p ON i.profile_id = p.id GROUP BY p.id, i.kind ORDER BY p.id, i.kind".

(** [items i JOIN profiles p ON i.profile_id = p.id] *)
Definition join_profiles (d : database) : list (Item.t * Profile.t) :=
  i ← items d;
  p ← profiles d;
  if decide (Item.profile_id i = Profile.id p) then [(i, p)] else [].

(** [ORDER BY p.id, i.kind] *)
Definition analysis_order (a b : analysis_row) : Prop :=
  analysis_profile_id a < analysis_profile_id b
  ∨ (analysis_profile_id a = analysis_profile_id b
     ∧ analysis_kind a ≤ analysis_kind b).

Global Instance analysis_order_dec a b : Decision (analysis_order a b).
Proof. unfold analysis_order. apply _. Defined.

Definition analysis_meaning (d : database) : outcome (list analysis_row) :=
  Returned
    (order_by analysis_order
       ((λ g : (Z * Z) * list (Item.t * Profile.t),
           {| analysis_profile_id := g.1.1;
              analysis_kind := g.1.2;
              analysis_count := int8_text (count_star g.2) |})
        <$> group_by (λ ip : Item.t * Profile.t,
                        (Profile.id ip.2, Item.kind ip.1))
              (join_profiles d))).

Definition getItemsByProfileAndKind (p : pool) : io (list analysis_row) :=
  try_io
    (rows ← pool_query p analysis_text [] analysis_meaning;
     mret rows)
    (λ error, throw error).

(** *** getItemById *)

Definition item_by_id_text : string :=
  "SELECT * FROM postgres.items WHERE id = $1".

(** [WHERE id = $1] *)
Definition item_by_id_meaning (id : Z) (d : database)
  : outcome (list Item.t) :=
  Returned (filter (λ i, Item.id i = id) (items d)).

(** [result.rows.length ? result.rows[0] : null] *)
Definition getItemById (p : pool) (id : Z) : io (option Item.t) :=
  try_io
    (rows ← pool_query p item_by_id_text [SqlNumber (Int id)]
               (item_by_id_meaning id);
     mret (if decide (length rows = 0%nat) then None else head rows))
    (λ error, throw error).

(** *** getAllProfiles, getConfiguration *)

Definition profiles_text : string := "SELECT * FROM postgres.profiles".

Definition getAllProfiles (p : pool) : io (list Profile.t) :=
  try_io
    (rows ← pool_query p profiles_text [] (λ d, Returned (profiles d));
     mret rows)
    (λ error, throw error).

Definition config_text : string := "SELECT * FROM postgres.config".

Definition getConfiguration (p : pool) : io (list raw_row) :=
  try_io
    (rows ← pool_query p config_text [] (λ d, Returned (config d));
     mret rows)
    (λ error, throw error).

(** *** getTableData *)

(** [tableName.replace(/[^a-zA-Z0-9_]/g, '')] *)
Definition safeTableName (tableName : string) : string :=
  remove_outside is_identifier_char tableName.

(** [`SELECT * FROM postgres.${safeTableName} LIMIT $1`] *)
Definition table_data_text (safe : string) : string :=
  "SELECT * FROM postgres." +:+ safe +:+ " LIMIT $1".

(** A relation that does not exist is an error of the server. *)
Definition table_data_meaning (safe : string) (limit : number) (d : database)
  : outcome (list raw_row) :=
  match relations d safe with
  | Some rows => Pg.limit limit rows
  | None => Thrown (Error ("relation does not exist: postgres." +:+ safe) EmptyString)
  end.

(** The source gives [limit] the default 20; every caller passes it. *)
Definition getTableData (p : pool) (tableName : string) (limit : number)
  : io (list raw_row) :=
  try_io
    (let safe := safeTableName tableName in
     let query := table_data_text safe in
     rows ← pool_query p query [SqlNumber limit]
               (table_data_meaning safe limit);
     mret rows)
    (λ error, throw error).

(** *** getTables, getTableSchema *)

Definition tables_text : string :=
  "SELECT tablename FROM pg_tables WHERE schemaname = 'public' ORDER BY tablename;".

(** [result.rows.map(row => row.tablename)] *)
Definition getTables (p : pool) : io (list string) :=
  try_io
    (rows ← pool_query p tables_text [] (λ d, Returned (public_tables d));
     mret ((λ tablename : string, tablename) <$> rows))
    (λ error, throw error).

Definition schema_text : string :=
  "SELECT column_name, data_type, is_nullable FROM information_schema.columns WHERE table_schema = 'public' AND table_name = $1 ORDER BY ordinal_position;".

Definition getTableSchema (p : pool) (tableName : string) : io (list raw_row) :=
  try_io
    (rows ← pool_query p schema_text [SqlText tableName]
               (λ d, Returned (columns d tableName));
     mret rows)
    (λ error, throw error).

(** *** getAllItemsFromPublicSchema *)

(** The object literals of the two placeholder arrays. *)
Inductive placeholder :=
| SampleItem (id : Z) (name description : string)
| ErrorEntry (error details : string).

Record table_detail := TableDetail {
  detail_name : string;
  detail_schema : list raw_row;
  sampleData : list raw_row;
  rowCount : Z
}.

Record database_info := DatabaseInfo {
  info_database : string;
  info_tables : list string;
  tableDetails : list table_detail
}.

(** The function returns an array of placeholders or the description. *)
Inductive schema_report :=
| Placeholders (entries : list placeholder)
| Description (info : database_info).

(** The [for ... of importantTables] loop, pushing onto [tableDetails]. *)
Fixpoint sample_tables (p : pool) (importantTables : list string)
  (details : list table_detail) : io (list table_detail) :=
  match importantTables with
  | [] => mret details
  | tableName :: rest =>
      schema ← getTableSchema p tableName;
      data ← getTableData p tableName (Int 5);
      sample_tables p rest
        (details ++ [ {| detail_name := tableName;
                         detail_schema := schema;
                         sampleData := data;
                         rowCount := Z.of_nat (length data) |} ])
  end.

Definition getAllItemsFromPublicSchema (env : gmap string string) (p : pool)
  : io schema_report :=
  try_io
    (tables ← getTables p;
     if decide (length tables = 0%nat) then
       mret (Placeholders
               [ SampleItem 1 "Sample Item 1" "This is a sample item";
                 SampleItem 2 "Sample Item 2" "Another sample item" ])
     else
       let importantTables := take 3 tables in
       details ← sample_tables p importantTables [];
       mret (Description
               {| info_database := dbConfig_database env;
                  info_tables := tables;
                  tableDetails := details |}))
    (λ error,
       mret (Placeholders
               [ ErrorEntry "Error fetching database info" (message error);
                 SampleItem 1 "Sample Item 1" "This is a sample item" ])).

(** *** countItemsByKind *)

(** A row of the grouped query. *)
Record kind_row := KindRow { kind_of_row : Z; count_of_row : Z }.

(** An element of the array [countItemsByKind] returns. *)
Record kind_summary := KindSummary {
  kind_label : string;
  kind_id : Z;
  kind_count : number
}.

Definition kinds_text : string :=
  "SELECT kind, COUNT(*) as count FROM postgres.items GROUP BY kind ORDER BY kind".

(** [ORDER BY kind] *)
Definition kind_order (a b : kind_row) : Prop :=
  kind_of_row a ≤ kind_of_row b.

Global Instance kind_order_dec a b : Decision (kind_order a b).
Proof. unfold kind_order. apply _. Defined.

Definition kinds_meaning (d : database) : outcome (list kind_row) :=
  Returned
    (order_by kind_order
       ((λ g : Z * list Item.t,
           {| kind_of_row := g.1; count_of_row := count_star g.2 |})
        <$> group_by Item.kind (items d))).

Definition format_kind_row (row : kind_row) : kind_summary :=
  {| kind_label := formatKind (kind_of_row row);
     kind_id := kind_of_row row;
     kind_count := parseInt (int8_text (count_of_row row)) |}.

Definition countItemsByKind (p : pool) : io (list kind_summary) :=
  try_io
    (rows ← pool_query p kinds_text [] kinds_meaning;
     mret (format_kind_row <$> rows))
    (λ error, throw error).

End PgComponent.

(** ** The query component on MySQL (components/database.ts) *)

Module MysqlComponent.

Definition items_text : string := "SELECT * FROM items".

(** [const [rows] = await pool.query("SELECT * FROM items"); return rows;] *)
Definition getAllItems (p : pool) : io (list Item.t) :=
  try_io
    (rows ← pool_query p items_text [] (λ d, Returned (items d));
     mret rows)
    (λ error, throw error).

Definition item_by_id_text : string := "SELECT * FROM items WHERE id = ?".

(** [items.length ? items[0] : null] *)
Definition getItemById (p : pool) (id : Z) : io (option Item.t) :=
  try_io
    (rows ← pool_query p item_by_id_text [SqlNumber (Int id)]
               (λ d, Returned (filter (λ i, Item.id i = id) (items d)));
     let items := rows in
     mret (if decide (length items = 0%nat) then None else head items))
    (λ error, throw error).

End MysqlComponent.

(** ** The routes of router.ts named by the specification *)

Module Router.

(** An entry of [validationResult(req).array()]. *)
Record validation_error := ValidationError {
  error_type : string;
  error_value : option json;
  msg : string;
  path : string;
  location : string
}.

Definition json_of_option {A} (f : A → json) (v : option A) : json :=
  match v with
  | Some a => f a
  | None => JNull
  end.

(** [JSON.stringify] leaves out a property whose value is [undefined]. *)
Definition json_of_validation_error (e : validation_error) : json :=
  JObj ([ ("type", JStr (error_type e)) ]
        ++ match error_value e with
           | Some v => [ ("value", v) ]
           | None => []
           end
        ++ [ ("msg", JStr (msg e));
             ("path", JStr (path e));
             ("location", JStr (location e)) ]).


(** A [Buffer], as [JSON.stringify] writes it. *)
Definition json_of_buffer (b : bytea) : json :=
  JObj [ ("type", JStr "Buffer");
         ("data", JArr ((λ x, JNum (Z.of_N (Byte.to_N x))) <$> b)) ].

(** A row of the MySQL component. *)
Definition json_of_raw_item (i : Item.t) : json :=
  JObj [ ("id", JNum (Item.id i));
         ("kind", JNum (Item.kind i));
         ("profile_id", JNum (Item.profile_id i));
         ("category", json_of_option json_of_buffer (Item.category i));
         ("name", json_of_option json_of_buffer (Item.name i));
         ("value", json_of_option json_of_buffer (Item.value i)) ].

Definition respond (status : Z) (body : json) : io () :=
  ([Respond status body], Returned ()).

Definition next (e : error) : io () := ([Next e], Returned ()).

Section routes.

(** [process.env] *)
Variable env : gmap string string.

(** The validators of express-validator (validator.js), as verdicts on
    the value of a body field; [None] is an absent field. *)
Variable isEmail : option json → bool.
Variable isEmpty : option json → bool.

(** [emailComponent.sendConfirmationEmail] *)
Variable sendConfirmationEmail : gmap string json → outcome json.

(** [databaseComponent.getAllItems] and what [res.json] makes of one of its
    rows: the module behind "../components/database" is one of the two query
    components. *)
Context {R : Type}.
Variable getAllItems : pool → io (list R).
Variable json_of_row : R → json.

(** A validation chain [body(field).<validator>()] run on a request
    body: it records one error when the value fails the validator. *)
Definition body_check (field : string) (valid : option json → bool)
  (req_body : gmap string json) : list validation_error :=
  if valid (req_body !! field) then []
  else [ {| error_type := "field";
            error_value := req_body !! field;
            msg := "Invalid value";
            path := field;
            location := "body" |} ].

(** [validationResult(req)] after
    [body("contactEmail").isEmail()] and
    [body("reservationId").not().isEmpty()]. *)
Definition confirmation_errors (req_body : gmap string json)
  : list validation_error :=
  body_check "contactEmail" isEmail req_body
  ++ body_check "reservationId" (λ v, negb (isEmpty v)) req_body.

(** POST /email/reservationConfirmation *)
Definition reservationConfirmation (req_body : gmap string json) : io () :=
  try_io
    (let errors := confirmation_errors req_body in
     if negb (bool_decide (errors = [])) then
       respond 422 (JObj [("errors",
                           JArr (json_of_validation_error <$> errors))])
     else
       result ← ([EmailCall req_body], sendConfirmationEmail req_body);
       respond 200 result)
    (λ error, next error).

(** GET /items *)
Definition getItems (p : pool) : io () :=
  try_io
    (items ← getAllItems p;
     respond 200 (JArr (json_of_row <$> items)))
    (λ error,
       respond 500
         (JObj [ ("error", JStr "Database error");
                 ("details", JStr (message error));
                 ("config",
                  JObj [ ("host",
                          JStr (PgComponent.env_or env "POSTGRESQL_HOST" "localhost"));
                         ("port",
                          JStr (PgComponent.env_or env "POSTGRESQL_PORT" "5432"));
                         ("database",
                          JStr (PgComponent.env_or env "POSTGRESQL_DB" "askar-wallet"))
                       ]) ]);;
       next error).

End routes.

End Router.

(** ** Reading the encodings back

    One step of [decode(text, 'hex')] and of [decode(text, 'escape')]: the
    first byte of an encoded text and the text that follows it.  They serve
    to show that the encodings lose nothing. *)

Module Decode.

Definition hex_value (c : ascii) : N :=
  let n := N_of_ascii c in
  (if n <? 58 then n - 48 else n - 87)%N.

Definition hex_step (s : string) : option (byte * string) :=
  match s with
  | String hi (String lo rest) =>
      (λ x, (x, rest)) <$> Byte.of_N (16 * hex_value hi + hex_value lo)
  | _ => None
  end.

Definition octal_value (c : ascii) : N := (N_of_ascii c - 48)%N.

Definition escape_step (s : string) : option (byte * string) :=
  match s with
  | String c rest =>
      if (N_of_ascii c =? 92)%N then
        match rest with
        | String c1 rest1 =>
            if (N_of_ascii c1 =? 92)%N then Some (x5c, rest1)
            else
              match rest1 with
              | String c2 (String c3 rest3) =>
                  (λ x, (x, rest3))
                  <$> Byte.of_N (64 * octal_value c1 + 8 * octal_value c2
                                 + octal_value c3)
              | _ => None
              end
        | EmptyString => None
        end
      else (λ x, (x, rest)) <$> Byte.of_N (N_of_ascii c)
  | EmptyString => None
  end.

(** Bytes that [encode(_, 'escape')] leaves as they are and that the class
    [\x20-\x7E] excludes: the control characters other than NUL. *)
Definition is_control_byte (x : byte) : bool :=
  let n := Byte.to_N x in
  ((1 <=? n) && (n <=? 31) || (n =? 127))%N.

(** Bytes outside [\x20-\x7E]. *)
Definition is_unprintable_byte (x : byte) : bool :=
  let n := Byte.to_N x in
  ((n <? 32) || (126 <? n))%N.

End Decode.

(** ** The dashboard component (its computed total) *)

Module Dashboard.

(** [total + item.count] on numbers. *)
Definition add (a b : number) : number :=
  match a, b with
  | Int x, Int y => Int (x + y)
  | _, _ => NaN
  end.

(** [this.summary.reduce((total, item) => total + item.count, 0)] *)
Definition totalItems (summary : list PgComponent.kind_summary) : number :=
  foldl (λ total item, add total (PgComponent.kind_count item)) (Int 0)
    summary.

End Dashboard.

(** ** Sample data *)

Module Sample.

Definition bytes (s : string) : option bytea :=
  Some (String.list_byte_of_string s).

Definition wallet : list Item.t :=
  [ Item.Make 1 2 10 (bytes "cred") (bytes "degree") (bytes "v1");
    Item.Make 2 1 10 (bytes "conn") (bytes "alice") (bytes "v2");
    Item.Make 3 2 11 (bytes "cred") (bytes "degree") (bytes "v3");
    Item.Make 4 7 11 (bytes "misc") (Some [x01; x1f]) None;
    Item.Make 5 4 11 (bytes "key") (Some [x80; x00; x5c]) (bytes EmptyString);
    Item.Make 6 2 10 (bytes "cred") None (bytes "v6") ].

Definition content : database :=
  {| items := wallet;
     profiles := [ Profile.Make 10 []; Profile.Make 11 [] ];
     config := [];
     relations := λ name,
       if decide (name = "profiles") then
         Some [ [("id", SqlNumber (Int 10))]; [("id", SqlNumber (Int 11))] ]
       else None;
     public_tables := [];
     columns := λ _, [] |}.

(** A wallet with one item whose name is the single byte 0x80. *)
Definition high_bit_content : database :=
  {| items := [ Item.Make 1 2 10 (Some [x63]) (Some [x80]) None ];
     profiles := [];
     config := [];
     relations := λ _, None;
     public_tables := [];
     columns := λ _, [] |}.

Definition high_bit : pool :=
  {| fault := λ _ _, None; db := high_bit_content |}.

(** A pool whose every statement succeeds. *)
Definition healthy : pool := {| fault := λ _ _, None; db := content |}.

(** A pool behind which the server cannot be reached. *)
Definition unreachable : pool :=
  {| fault := λ _ _, Some (Error "connect ECONNREFUSED 127.0.0.1:5432" EmptyString);
     db := content |}.

(** A stand-in for the e-mail validator: a text that holds an at sign. *)
Fixpoint contains_at (s : string) : bool :=
  match s with
  | EmptyString => false
  | String c rest => (N_of_ascii c =? 64)%N || contains_at rest
  end.

Definition has_at_sign (v : option json) : bool :=
  match v with
  | Some (JStr s) => contains_at s
  | _ => false
  end.

Definition is_missing (v : option json) : bool :=
  match v with
  | Some (JStr s) => negb (truthy s)
  | Some _ => false
  | None => true
  end.

(** A mailer that always succeeds. *)
Definition mailer (req_body : gmap string json) : outcome json :=
  Returned (JStr "sent").

Definition bad_request : gmap string json :=
  <["contactEmail" := JStr "not-an-email"]>
    (<["reservationId" := JStr "r-1"]> ∅).

End Sample.

(** ** Groups of items

    The notions in which the properties of countItemsByCategory are stated:
    the (category, name, kind) triple of an item, and the summary row that
    belongs to a triple. *)

Module Grouping.

Definition triple : Type := option bytea * option bytea * Z.

Global Instance byte_eq_dec : EqDecision byte := Byte.byte_eq_dec.

Global Instance triple_eq_dec : EqDecision triple.
Proof. unfold triple, bytea. apply _. Defined.

Definition item_group (i : Item.t) : triple :=
  (Item.category i, Item.name i, Item.kind i).

(** The items of a group, in table order. *)
Definition members (all : list Item.t) (t : triple) : list Item.t :=
  filter (λ i, item_group i = t) all.

(** The key under which the query groups the triple. *)
Definition encode_group (t : triple) : option string * option string * Z :=
  (encode_hex <$> t.1.1, encode_escape <$> t.1.2, t.2).

(** The text rendering of a name with the characters outside
    [\x20-\x7E] removed; a NULL name has no text. *)
Definition stripped_name (name : option bytea) : string :=
  match name with
  | Some b => remove_outside is_printable (encode_escape b)
  | None => EmptyString
  end.

Definition summary_of_group (all : list Item.t) (t : triple)
  : PgComponent.category_summary :=
  {| PgComponent.category_hex := encode_hex <$> t.1.1;
     PgComponent.credential_type :=
       if truthy (stripped_name t.1.2) then stripped_name t.1.2
       else "Unknown";
     PgComponent.count := Int (Z.of_nat (length (members all t)));
     PgComponent.summary_kind := PgComponent.formatKind t.2;
     PgComponent.item_ids := Item.id <$> members all t |}.

(** Count descending, then category ascending (NULL last). *)
Definition summary_order (a b : PgComponent.category_summary) : Prop :=
  match PgComponent.count a, PgComponent.count b with
  | Int x, Int y =>
      y < x
      ∨ (x = y
         ∧ text_le (PgComponent.category_hex a) (PgComponent.category_hex b))
  | _, _ => False
  end.

End Grouping.

(** ** The other routes of router.ts that read the database *)

Module DataRoutes.















Section status_route.

(** The validators of express-validator and
    [emailComponent.sendStatusEmail]. *)
Variable isEmail : option json → bool.
Variable isEmpty : option json → bool.
Variable sendStatusEmail : gmap string json → outcome json.

(** [validationResult(req)] after [body("contactEmail").isEmail()],
    [body("reservationId").not().isEmpty()] and
    [body("state").not().isEmpty()]. *)
Definition status_errors (req_body : gmap string json)
  : list Router.validation_error :=
  Router.body_check "contactEmail" isEmail req_body
  ++ Router.body_check "reservationId" (λ v, negb (isEmpty v)) req_body
  ++ Router.body_check "state" (λ v, negb (isEmpty v)) req_body.

(** POST /email/reservationStatus *)
Definition reservationStatus (req_body : gmap string json) : io () :=
  try_io
    (let errors := status_errors req_body in
     if negb (bool_decide (errors = [])) then
       Router.respond 422
         (JObj [("errors",
                 JArr (Router.json_of_validation_error <$> errors))])
     else
       result ← ([EmailCall req_body], sendStatusEmail req_body);
       Router.respond 200 result)
    (λ error, Router.next error).

End status_route.

End DataRoutes.

(** ** The innkeeper routes of router.ts *)

Module Innkeeper.

(** [req.claims], set by the OIDC middleware: the part the route reads. *)
Record realm := Realm { roles : option (list string) }.
Record claims := Claims { realm_access : option realm }.

(** What these routes do, in order: calls of the innkeeper collaborator,
    the response, an error handed to the next handler. *)
Inductive event :=
| LoginCall
| ReservationCall (req_body : gmap string json) (token : option json)
| Reply (status : Z) (body : option json)
| Forward (e : error).

(** [result.token] of an object given by its fields. *)
Definition token_of (fields : list (string * json)) : option json :=
  snd <$> List.find (λ field, bool_decide (field.1 = "token")) fields.

Section routes.

(** [config.get("server.oidc.roleName")] *)
Variable roleName : string.

(** [innkeeperComponent.login()] (an object) and
    [innkeeperComponent.createReservation]. *)
Variable login : outcome (list (string * json)).
Variable createReservation : gmap string json → option json → outcome json.

(** [req.claims.realm_access && req.claims.realm_access.roles &&
     req.claims.realm_access.roles.includes(roleName)] *)
Definition has_role (c : claims) : bool :=
  match realm_access c with
  | Some access =>
      match roles access with
      | Some granted => bool_decide (roleName ∈ granted)
      | None => false
      end
  | None => false
  end.

(** GET /innkeeperLogin (after the OIDC middleware) *)
Definition innkeeperLogin (req_claims : claims) : list event :=
  if has_role req_claims then
    LoginCall
    :: match login with
       | Returned result => [Reply 200 (Some (JObj result))]
       | Thrown error => [Forward error]
       end
  else [Reply 403 None].

(** POST /innkeeperReservation *)
Definition innkeeperReservation (req_body : gmap string json) : list event :=
  LoginCall
  :: match login with
     | Returned session =>
         let token := token_of session in
         ReservationCall req_body token
         :: match createReservation req_body token with
            | Returned result => [Reply 201 (Some result)]
            | Thrown error => [Forward error]
            end
     | Thrown error => [Forward error]
     end.

End routes.

End Innkeeper.

(** ** The dashboard component: what it shows *)

Module DashboardView.

(** [data()] *)
Record data := Data {
  apiStatus : string;
  summary : list PgComponent.kind_summary
}.

Definition initial : data :=
  {| apiStatus := "Loading wallet data..."; summary := [] |}.

(** [`${n}`] for a number. *)
Definition show (n : number) : string :=
  match n with
  | Int z => to_string z
  | NaN => "NaN"
  end.

(** [item => item.kind === 'Credential'] *)
Definition is_credential (item : PgComponent.kind_summary) : bool :=
  bool_decide (PgComponent.kind_label item = "Credential").

(** [fetchSummaryData], given how [axios.get('/api/items/summary')] ended
    (the data of the response, or the error). *)
Definition fetchSummaryData (response : outcome (list PgComponent.kind_summary))
  (this : data) : data :=
  match response with
  | Returned received =>
      let total := Dashboard.totalItems received in
      {| summary := received;
         apiStatus :=
           match List.find is_credential received with
           | Some credentialItem =>
               "Found " +:+ show (PgComponent.kind_count credentialItem)
               +:+ " Credentials, " +:+ show total +:+ " total items"
           | None => "Found " +:+ show total +:+ " total items"
           end |}
  | Thrown error =>
      {| summary := summary this;
         apiStatus := "Error fetching summary: " +:+ message error |}
  end.

(** [item.count > 0] *)
Definition positive (n : number) : bool :=
  match n with
  | Int z => 0 <? z
  | NaN => false
  end.

(** [v-if="summary.some(item => item.kind === 'Credential' && item.count > 0)"] *)
Definition shows_verified (this : data) : bool :=
  existsb (λ item, is_credential item && positive (PgComponent.kind_count item))
    (summary this).

(** [{{ summary.find(item => item.kind === 'Credential').count }} verified
    credentials]; [None] when [find] gives [undefined] and reading [count]
    throws. *)
Definition verified_text (this : data) : option string :=
  (λ item, show (PgComponent.kind_count item) +:+ " verified credentials")
  <$> List.find is_credential (summary this).

(** The [:class] object of a card: the classes whose condition holds, in
    the order of the object's keys. *)
Definition card_class (kind : string) : list string :=
  (if bool_decide (kind = "Credential") then ["bg-blue-50 border-blue-200"]
   else [])
  ++ (if bool_decide (kind = "Connection") then ["bg-green-50 border-green-200"]
      else [])
  ++ (if bool_decide (kind = "Key") then ["bg-purple-50 border-purple-200"]
      else [])
  ++ (if bool_decide (kind = "Message") then ["bg-yellow-50 border-yellow-200"]
      else [])
  ++ (if negb (bool_decide
                 (kind ∈ ["Credential"; "Connection"; "Key"; "Message"]))
      then ["bg-gray-50 border-gray-200"]
      else []).

End DashboardView.

(** ** Notions used to state further properties *)

Module Plan.

(** The statements the description of the database sends for a list of
    tables: for each one its schema, then its sample. *)
Definition sampling (names : list string) : list event :=
  n ← names;
  [ Query PgComponent.schema_text [SqlText n];
    Query (PgComponent.table_data_text (PgComponent.safeTableName n))
      [SqlNumber (Int 5)] ].

(** The identifiers of the items of the table whose profile exists. *)
Definition owned (d : database) : list Item.t :=
  filter (λ i, Item.profile_id i ∈ Profile.id <$> profiles d) (items d).

(** The error with which a call of the component ends, when it throws. *)
Definition failure {A} (run : io A) : option error :=
  match run.2 with
  | Thrown e => Some e
  | Returned _ => None
  end.

(** The statements of [sampling], each with the way in which the call of
    the component that sends it ends on pool [p]. *)
Definition outcomes (p : pool) (names : list string)
  : list (event * option error) :=
  n ← names;
  [ (Query PgComponent.schema_text [SqlText n],
     failure (PgComponent.getTableSchema p n));
    (Query (PgComponent.table_data_text (PgComponent.safeTableName n))
       [SqlNumber (Int 5)],
     failure (PgComponent.getTableData p n (Int 5))) ].

End Plan.

(** ** The texts of a response *)

Module Body.





End Body.

(** ** More sample data *)

Module Sample2.

(** A server whose schema public has one table, of which schema postgres
    has no relation. *)
Definition mismatched_content : database :=
  {| items := [];
     profiles := [];
     config := [];
     relations := λ _, None;
     public_tables := ["wallet_keys"];
     columns := λ _, [ [("column_name", SqlText "id")] ] |}.

Definition mismatched : pool :=
  {| fault := λ _ _, None; db := mismatched_content |}.

(** A server whose schema public lists the relation "profiles" of the
    sample database. *)
Definition described_content : database :=
  {| items := Sample.wallet;
     profiles := profiles Sample.content;
     config := [];
     relations := relations Sample.content;
     public_tables := ["profiles"];
     columns := λ _, [ [("column_name", SqlText "id")] ] |}.

Definition described : pool :=
  {| fault := λ _ _, None; db := described_content |}.

(** A server that lists the relation "profiles" and whose sample
    statements fail. *)
Definition failing_sample : pool :=
  {| fault := λ text _,
       if decide (text = PgComponent.table_data_text "profiles") then
         Some (Error "canceling statement due to statement timeout"
                 EmptyString)
       else None;
     db := described_content |}.



End Sample2.

(** * Properties *)

(** ** JavaScript helpers *)

Section decimal_numerals.

Lemma pretty_N_char_digit x :
  (x < 10)%N →
  is_digit (pretty_N_char x) = true
  ∧ digit_value 10 (pretty_N_char x) = Some (Z.of_N x).
Proof.
  intros Hx.
  assert (x = 0 ∨ x = 1 ∨ x = 2 ∨ x = 3 ∨ x = 4 ∨ x = 5 ∨ x = 6 ∨ x = 7
          ∨ x = 8 ∨ x = 9)%N as Hcases by lia.
  repeat (destruct Hcases as [-> | Hcases]; [by vm_compute |]).
  subst x. by vm_compute.
Qed.

Lemma pretty_N_go_digits x s :
  all_digits s = true → all_digits (pretty_N_go x s) = true.
Proof.
  revert s. induction (N.lt_wf_0 x) as [x _ IH]; intros s Hs.
  destruct (decide (x = 0%N)) as [-> | Hx]; [by rewrite pretty_N_go_0 |].
  rewrite pretty_N_go_step by lia.
  apply IH; [apply N.div_lt; lia |]. simpl.
  destruct (pretty_N_char_digit (x `mod` 10)) as [-> _]; [| done].
  apply N.mod_lt; lia.
Qed.

(** Reading back the digits that [pretty_N_go] puts in front of [s]. *)
Lemma parse_digits_pretty_N_go x :
  ∃ k : Z, 0 ≤ k ∧ ∀ acc s,
    parse_digits 10 acc (pretty_N_go x s)
    = parse_digits 10 (acc * 10 ^ k + Z.of_N x) s.
Proof.
  induction (N.lt_wf_0 x) as [x _ IH].
  destruct (decide (x = 0%N)) as [-> | Hx].
  { exists 0. split; [done |]. intros acc s.
    rewrite pretty_N_go_0. f_equal. rewrite Z.pow_0_r. simpl. lia. }
  destruct (IH (x `div` 10)%N) as (k & Hk & Hparse);
    [apply N.div_lt; lia |].
  exists (k + 1). split; [lia |]. intros acc s.
  rewrite pretty_N_go_step by lia. rewrite Hparse. simpl.
  destruct (pretty_N_char_digit (x `mod` 10)) as [_ ->];
    [apply N.mod_lt; lia |].
  f_equal. rewrite Z.pow_add_r by lia.
  rewrite (N.div_mod x 10) at 3 by lia.
  rewrite N2Z.inj_add, N2Z.inj_mul. simpl Z.of_N. lia.
Qed.

Lemma pretty_N_go_nonempty x s :
  (0 < x)%N → pretty_N_go x s ≠ EmptyString.
Proof.
  revert s. induction (N.lt_wf_0 x) as [x _ IH]; intros s Hx.
  rewrite pretty_N_go_step by done.
  destruct (decide (x `div` 10 = 0)%N) as [-> | Hdiv].
  - by rewrite pretty_N_go_0.
  - apply IH; [apply N.div_lt; lia | by apply N.neq_0_lt_0].
Qed.

Ltac by_character c :=
  destruct c as [[] [] [] [] [] [] [] []];
  first [ discriminate | congruence | reflexivity ].

Lemma parseInt_digit_head c s :
  is_digit c = true → parseInt (String c s) = parse_unsigned (String c s).
Proof. intros Hc. vm_compute in Hc. by_character c. Qed.

Lemma parse_unsigned_not_zero c s :
  is_digit c = true → c ≠ "0"%char →
  parse_unsigned (String c s) = Int (parse_digits 10 0 (String c s)).
Proof. intros Hc Hzero. vm_compute in Hc. by_character c. Qed.

Lemma parse_unsigned_zero_digit c s :
  is_digit c = true →
  parse_unsigned (String "0" (String c s))
  = Int (parse_digits 10 0 (String "0" (String c s))).
Proof. intros Hc. vm_compute in Hc. by_character c. Qed.

(** On a non-empty string of decimal digits [parseInt] reads the whole
    numeral in radix 10. *)
Lemma parseInt_digits s :
  s ≠ EmptyString → all_digits s = true →
  parseInt s = Int (parse_digits 10 0 s)
  ∧ parse_unsigned s = Int (parse_digits 10 0 s).
Proof.
  destruct s as [| c rest]; [done |]. intros _ Hall.
  simpl in Hall. apply andb_prop in Hall as [Hc Hrest].
  rewrite parseInt_digit_head by done.
  cut (parse_unsigned (String c rest)
       = Int (parse_digits 10 0 (String c rest))); [by intros -> |].
  destruct (decide (c = "0"%char)) as [-> | Hzero];
    [| by apply parse_unsigned_not_zero].
  destruct rest as [| c' rest']; [done |].
  simpl in Hrest. apply andb_prop in Hrest as [Hc' _].
  by apply parse_unsigned_zero_digit.
Qed.

Lemma parseInt_pretty_N x : parseInt (pretty x) = Int (Z.of_N x)
                            ∧ parse_unsigned (pretty x) = Int (Z.of_N x).
Proof.
  unfold pretty, pretty_N. case_decide as Hx; [by subst |].
  destruct (parse_digits_pretty_N_go x) as (k & _ & Hparse).
  specialize (Hparse 0 EmptyString).
  destruct (parseInt_digits (pretty_N_go x EmptyString)) as [-> ->];
    [apply pretty_N_go_nonempty; lia | by apply pretty_N_go_digits |].
  rewrite Hparse. unfold parse_digits. split; f_equal; lia.
Qed.

Lemma parseInt_minus s :
  parseInt (String "-" s)
  = match parse_unsigned s with Int z => Int (- z) | NaN => NaN end.
Proof. reflexivity. Qed.

(** [parseInt(String(n))] is [n] for every integer [n]. *)
Lemma parseInt_to_string (n : Z) : parseInt (to_string n) = Int n.
Proof.
  unfold to_string, pretty, pretty_Z. destruct n as [| p | p].
  - done.
  - apply (parseInt_pretty_N (N.pos p)).
  - destruct (parseInt_pretty_N (N.pos p)) as [_ Hunsigned].
    change (parseInt (String "-" (pretty (N.pos p))) = Int (Z.neg p)).
    rewrite parseInt_minus, Hunsigned. done.
Qed.

Lemma parseInt_int8_text (n : Z) : parseInt (int8_text n) = Int n.
Proof. apply parseInt_to_string. Qed.

End decimal_numerals.

(** ** formatKind *)

Lemma kinds_lookup_other (kind : Z) :
  kind ≠ 1 → kind ≠ 2 → kind ≠ 3 → kind ≠ 4 → kind ≠ 5 →
  PgComponent.kinds !! kind = None.
Proof.
  intros. unfold PgComponent.kinds.
  rewrite !lookup_insert_ne by done. apply lookup_empty.
Qed.

Lemma formatKind_other (kind : Z) :
  kind ≠ 1 → kind ≠ 2 → kind ≠ 3 → kind ≠ 4 → kind ≠ 5 →
  PgComponent.formatKind kind = "Type " +:+ to_string kind.
Proof.
  intros. unfold PgComponent.formatKind.
  by rewrite kinds_lookup_other.
Qed.

(** C1: formatKind is a total function from integer kind codes to labels.
    The codes 1, 2, 3, 4, 5 give "Connection", "Credential", "Message",
    "Key", "Proof"; every other integer [kind] gives the text "Type "
    followed by the decimal numeral of [kind] (the numeral reads back as
    [kind]).  The function returns a string in every case: it has no
    failing branch. *)
Theorem formatKind_total_mapping (kind : Z) :
  PgComponent.formatKind kind
  = match kind with
    | 1 => "Connection"
    | 2 => "Credential"
    | 3 => "Message"
    | 4 => "Key"
    | 5 => "Proof"
    | _ => "Type " +:+ to_string kind
    end
  ∧ parseInt (to_string kind) = Int kind.
Proof.
  split; [| apply parseInt_to_string].
  destruct kind as [| p | p];
    [by apply formatKind_other | | by apply formatKind_other].
  destruct p as [[[p | p |] | [p | p |] |] | [[p | p |] | [p | p |] |] |];
    first [ reflexivity | by apply formatKind_other ].
Qed.

(** ** The encodings of PostgreSQL *)

Section encodings.

Import Decode.

Lemma hex_step_encode x rest :
  hex_step (encode_hex (x :: rest)) = Some (x, encode_hex rest).
Proof. destruct x; reflexivity. Qed.

Lemma escape_step_encode x rest :
  escape_step (encode_escape (x :: rest)) = Some (x, encode_escape rest).
Proof. destruct x; reflexivity. Qed.

Global Instance encode_hex_inj : Inj (=) (=) encode_hex.
Proof.
  intros b1. induction b1 as [| x b1 IH]; intros [| y b2] Heq;
    [done | discriminate | discriminate |].
  assert (hex_step (encode_hex (x :: b1)) = hex_step (encode_hex (y :: b2)))
    as Hstep by by rewrite Heq.
  rewrite !hex_step_encode in Hstep.
  injection Hstep as -> Hrest. f_equal. by apply IH.
Qed.

Lemma encode_escape_nil b : encode_escape b = EmptyString → b = [].
Proof.
  destruct b as [| x b]; [done |]. intros Heq.
  pose proof (escape_step_encode x b) as Hstep.
  by rewrite Heq in Hstep.
Qed.

Global Instance encode_escape_inj : Inj (=) (=) encode_escape.
Proof.
  intros b1. induction b1 as [| x b1 IH]; intros [| y b2] Heq.
  - done.
  - symmetry in Heq. by apply encode_escape_nil in Heq.
  - by apply encode_escape_nil in Heq.
  - assert (escape_step (encode_escape (x :: b1))
            = escape_step (encode_escape (y :: b2))) as Hstep
      by by rewrite Heq.
    rewrite !escape_step_encode in Hstep.
    injection Hstep as -> Hrest. f_equal. by apply IH.
Qed.

(** The escape encoding of control bytes holds no printable character. *)
Lemma escape_control_bytes_stripped b :
  forallb is_control_byte b = true →
  remove_outside is_printable (encode_escape b) = EmptyString.
Proof.
  induction b as [| x b IH]; [done |]. simpl forallb.
  intros [Hx Hb]%andb_prop. specialize (IH Hb).
  destruct x; first [ discriminate Hx | exact IH ].
Qed.

(** Every character of an escape encoding is an ASCII character other
    than NUL, and the encoding of a high or zero byte is printable. *)
Lemma escape_high_byte_printable x :
  ((Byte.to_N x =? 0) || (128 <=? Byte.to_N x))%N = true →
  remove_outside is_printable (encode_escape [x]) = encode_escape [x]
  ∧ String.length (encode_escape [x]) = 4%nat.
Proof. destruct x; first [ discriminate | by split ]. Qed.

End encodings.

(** ** GROUP BY and ORDER BY *)

Section group_by.

Context {A K : Type} `{EqDecision K} (key : A → K).

Lemma group_by_keys rows :
  (group_by key rows).*1 = remove_dups (key <$> rows).
Proof.
  unfold group_by. rewrite <-list_fmap_compose.
  induction (remove_dups (key <$> rows)) as [| k ks IH]; [done |].
  rewrite fmap_cons, IH. done.
Qed.

Lemma group_by_NoDup rows : NoDup (group_by key rows).*1.
Proof. rewrite group_by_keys. apply NoDup_remove_dups. Qed.

Lemma elem_of_group_by rows k g :
  (k, g) ∈ group_by key rows
  ↔ (∃ r, r ∈ rows ∧ key r = k) ∧ g = filter (λ r, key r = k) rows.
Proof.
  unfold group_by. rewrite list_elem_of_fmap. split.
  - intros (k' & [= -> ->] & Hk).
    apply elem_of_remove_dups, list_elem_of_fmap in Hk as (r & -> & Hr).
    eauto.
  - intros [(r & Hr & <-) ->]. exists (key r). split; [done |].
    apply elem_of_remove_dups, list_elem_of_fmap. eauto.
Qed.

(** How many of the keys [ks] equal [k]. *)
Lemma indicator_sum (k : K) ks :
  NoDup ks → k ∈ ks →
  sum_list_with (λ k', if decide (k = k') then 1%nat else 0%nat) ks = 1%nat.
Proof.
  induction 1 as [| k' ks Hnotin Hnodup IH]; [by intros ?%elem_of_nil |].
  intros Hin. simpl. destruct (decide (k = k')) as [<- | Hne].
  - f_equal. clear IH Hin Hnodup.
    induction ks as [| k'' ks IH]; [done |]. simpl.
    apply not_elem_of_cons in Hnotin as [Hne Hnotin].
    rewrite decide_False by done. by apply IH.
  - apply elem_of_cons in Hin as [? | Hin]; [done |]. by apply IH.
Qed.

(** The groups partition the rows: their sizes add up to the number of
    rows. *)
Lemma group_sizes_cons r rows ks :
  sum_list_with (λ k, length (filter (λ r, key r = k) (r :: rows))) ks
  = (sum_list_with (λ k', if decide (key r = k') then 1 else 0) ks
     + sum_list_with (λ k, length (filter (λ r, key r = k) rows)) ks)%nat.
Proof.
  induction ks as [| k ks IH]; [done |].
  cbn [sum_list_with]. rewrite IH, filter_cons.
  destruct (decide (key r = k)); simpl; lia.
Qed.

Lemma group_sizes_total rows ks :
  NoDup ks → (∀ r, r ∈ rows → key r ∈ ks) →
  sum_list_with (λ k, length (filter (λ r, key r = k) rows)) ks
  = length rows.
Proof.
  intros Hnodup. induction rows as [| r rows IH]; intros Hkeys.
  - clear. induction ks as [| k ks IH]; [done |]. exact IH.
  - rewrite group_sizes_cons, IH by (intros; apply Hkeys; by right).
    rewrite indicator_sum; [done | done |]. apply Hkeys. by left.
Qed.

Lemma group_by_sizes_total rows :
  sum_list_with (λ g, length g.2) (group_by key rows) = length rows.
Proof.
  rewrite <-(group_sizes_total rows (remove_dups (key <$> rows))).
  - unfold group_by.
    induction (remove_dups (key <$> rows)) as [| k ks IH]; [done |].
    simpl. f_equal. exact IH.
  - apply NoDup_remove_dups.
  - intros r Hr. apply elem_of_remove_dups, list_elem_of_fmap. eauto.
Qed.

(** Removing duplicates commutes with an injective renaming. *)
Lemma remove_dups_fmap_inj {B} `{EqDecision A, EqDecision B}
  (f : A → B) `{!Inj (=) (=) f} (l : list A) :
  remove_dups (f <$> l) = f <$> remove_dups l.
Proof.
  induction l as [| x l IH]; [done |]. rewrite fmap_cons.
  change (remove_dups (f x :: (f <$> l)))
    with (if decide_rel elem_of (f x) (f <$> l) then remove_dups (f <$> l)
          else f x :: remove_dups (f <$> l)).
  change (remove_dups (x :: l))
    with (if decide_rel elem_of x l then remove_dups l
          else x :: remove_dups l).
  destruct (decide_rel elem_of x l) as [Hin | Hnotin],
    (decide_rel elem_of (f x) (f <$> l)) as [Hin' | Hnotin'].
  - exact IH.
  - destruct Hnotin'. apply list_elem_of_fmap. eauto.
  - apply list_elem_of_fmap in Hin' as (y & Heq & Hy).
    apply (inj f) in Heq. by subst.
  - rewrite fmap_cons. f_equal. exact IH.
Qed.

(** The sorted aggregate of the groups is the aggregate of the distinct
    keys, taken in some order. *)
Lemma order_by_group_by {B} (aggregate : K * list A → B) (le : relation B)
  `{∀ x y, Decision (le x y)} rows :
  ∃ ks, ks ≡ₚ remove_dups (key <$> rows)
        ∧ order_by le (aggregate <$> group_by key rows)
          = (λ k, aggregate (k, filter (λ r, key r = k) rows)) <$> ks.
Proof.
  unfold order_by, group_by. rewrite <-list_fmap_compose.
  pose proof (merge_sort_Permutation le
    ((aggregate ∘ (λ k, (k, filter (λ r, key r = k) rows)))
     <$> remove_dups (key <$> rows))) as Hperm.
  apply Permutation_map_inv in Hperm as (ks & Heq & Hks).
  exists ks. split; [by symmetry |]. exact Heq.
Qed.

End group_by.

Section orders.

Lemma string_leb_trans a b c :
  String.leb a b = true → String.leb b c = true → String.leb a c = true.
Proof.
  unfold String.leb. revert b c.
  induction a as [| x a IH]; intros [| y b] [| z c]; simpl; try done.
  unfold Ascii.compare.
  destruct (N.compare_spec (N_of_ascii x) (N_of_ascii y)),
    (N.compare_spec (N_of_ascii y) (N_of_ascii z)),
    (N.compare_spec (N_of_ascii x) (N_of_ascii z));
    try done; try lia.
  apply IH.
Qed.

Global Instance text_le_total : Total text_le.
Proof.
  intros [a |] [b |]; simpl; auto. apply String.leb_total.
Qed.

Global Instance text_le_trans : Transitive text_le.
Proof.
  intros [a |] [b |] [c |]; simpl; try done. apply string_leb_trans.
Qed.

Global Instance kind_order_total : Total PgComponent.kind_order.
Proof. intros a b. unfold PgComponent.kind_order. lia. Qed.

Global Instance kind_order_trans : Transitive PgComponent.kind_order.
Proof. intros a b c. unfold PgComponent.kind_order. lia. Qed.

Global Instance category_order_total : Total PgComponent.category_order.
Proof.
  intros a b. unfold PgComponent.category_order.
  destruct (Z.lt_trichotomy (PgComponent.cat_count a)
              (PgComponent.cat_count b)) as [? | [Heq | ?]]; [auto | | auto].
  destruct (total text_le (PgComponent.cat_category_hex a)
              (PgComponent.cat_category_hex b)); auto.
Qed.

Global Instance category_order_trans : Transitive PgComponent.category_order.
Proof.
  intros a b c. unfold PgComponent.category_order.
  intros [? | [? Hab]] [? | [? Hbc]]; [left; lia .. |].
  right. split; [lia |]. by trans (PgComponent.cat_category_hex b).
Qed.

End orders.

(** ** countItemsByKind *)

Lemma fmap_identity {A} (f : A → A) (l : list A) :
  (∀ x, f x = x) → f <$> l = l.
Proof.
  intros Hf. induction l as [| x l IH]; [done |].
  by rewrite fmap_cons, Hf, IH.
Qed.

Section count_by_kind.

Import PgComponent.

Lemma strictly_ascending (l : list Z) :
  StronglySorted Z.le l → NoDup l → StronglySorted Z.lt l.
Proof.
  induction 1 as [| x l Hsorted IH Hall]; intros Hnodup; constructor.
  - apply IH. by apply NoDup_cons in Hnodup as [_ ?].
  - apply NoDup_cons in Hnodup as [Hnotin _].
    apply Forall_forall. intros y Hy.
    rewrite Forall_forall in Hall. specialize (Hall y Hy).
    assert (x ≠ y) by (intros ->; done). lia.
Qed.

(** The rows of the grouped query: one per distinct kind, in strictly
    ascending order of the kind, each with the size of its group. *)
Lemma kinds_meaning_rows (d : database) :
  ∃ ks,
    ks ≡ₚ remove_dups (Item.kind <$> items d)
    ∧ StronglySorted Z.lt ks
    ∧ kinds_meaning d
      = Returned
          ((λ k, {| kind_of_row := k;
                    count_of_row :=
                      count_star (filter (λ i, Item.kind i = k) (items d)) |})
           <$> ks).
Proof.
  unfold kinds_meaning.
  destruct (order_by_group_by Item.kind
              (λ g : Z * list Item.t,
                 {| kind_of_row := g.1; count_of_row := count_star g.2 |})
              kind_order (items d)) as (ks & Hperm & Hrows).
  exists ks. split; [done |]. split; [| by rewrite Hrows].
  apply strictly_ascending;
    [| rewrite Hperm; apply NoDup_remove_dups].
  pose proof (StronglySorted_merge_sort kind_order
    ((λ g : Z * list Item.t,
        {| kind_of_row := g.1; count_of_row := count_star g.2 |})
     <$> group_by Item.kind (items d))) as Hsorted.
  unfold order_by in Hrows. rewrite Hrows in Hsorted.
  apply (StronglySorted_fmap kind_of_row kind_order Z.le) in Hsorted;
    [| done].
  rewrite <-list_fmap_compose in Hsorted.
  by rewrite fmap_identity in Hsorted.
Qed.

(** Adding up the counts of formatted rows. *)
Lemma totalItems_formatted (size : Z → nat) (ks : list Z) (start : Z) :
  foldl (λ total item, Dashboard.add total (kind_count item)) (Int start)
    (format_kind_row
     <$> ((λ k, {| kind_of_row := k; count_of_row := Z.of_nat (size k) |})
          <$> ks))
  = Int (start + Z.of_nat (sum_list_with size ks)).
Proof.
  revert start. induction ks as [| k ks IH]; intros start.
  - simpl. f_equal. lia.
  - rewrite !fmap_cons. cbn [foldl sum_list_with].
    unfold format_kind_row at 1. cbn [kind_count kind_of_row count_of_row].
    rewrite parseInt_int8_text. cbn [Dashboard.add].
    rewrite IH. f_equal. lia.
Qed.

End count_by_kind.

(** C3: when the statement succeeds, countItemsByKind returns exactly one row
    per distinct kind code of the items table (the kind codes of the rows
    are those present in the table, and they are strictly ascending, hence
    without repetition); each row carries the label of its kind and the
    number of items of that kind; and the counts of all rows add up (as the
    dashboard adds them) to the number of rows of the items table. *)
Theorem countItemsByKind_summary (p : pool) :
  fault p PgComponent.kinds_text [] = None →
  ∃ summary,
    PgComponent.countItemsByKind p
    = ([Query PgComponent.kinds_text []], Returned summary)
    ∧ (∀ k, k ∈ PgComponent.kind_id <$> summary
            ↔ ∃ i, i ∈ items (db p) ∧ Item.kind i = k)
    ∧ StronglySorted Z.lt (PgComponent.kind_id <$> summary)
    ∧ (∀ row, row ∈ summary →
         PgComponent.kind_label row
         = PgComponent.formatKind (PgComponent.kind_id row)
         ∧ PgComponent.kind_count row
           = Int (Z.of_nat
                    (length (filter (λ i, Item.kind i = PgComponent.kind_id row)
                               (items (db p))))))
    ∧ Dashboard.totalItems summary = Int (Z.of_nat (length (items (db p)))).
Proof.
  intros Hfault.
  destruct (kinds_meaning_rows (db p)) as (ks & Hperm & Hsorted & Hrows).
  eexists. split.
  { unfold PgComponent.countItemsByKind, pool_query.
    rewrite Hfault, Hrows. reflexivity. }
  assert (PgComponent.kind_id
          <$> (PgComponent.format_kind_row
               <$> ((λ k, {| PgComponent.kind_of_row := k;
                             PgComponent.count_of_row :=
                               count_star
                                 (filter (λ i, Item.kind i = k) (items (db p)))
                          |}) <$> ks)) = ks) as Hids.
  { rewrite <-!list_fmap_compose.
    by apply fmap_identity. }
  rewrite Hids. split; [| split; [done | split]].
  - intros k. rewrite Hperm, elem_of_remove_dups, list_elem_of_fmap.
    split; [intros (i & -> & Hi) | intros (i & Hi & <-)]; eauto.
  - intros row (r & -> & (k & -> & _)%list_elem_of_fmap)%list_elem_of_fmap.
    split; [done |]. simpl. apply parseInt_int8_text.
  - unfold Dashboard.totalItems, count_star.
    rewrite (totalItems_formatted
               (λ k, length (filter (λ i, Item.kind i = k) (items (db p))))).
    rewrite Hperm, group_sizes_total; [done | apply NoDup_remove_dups |].
    intros i Hi. apply elem_of_remove_dups, list_elem_of_fmap. eauto.
Qed.

(** The summary of the sample wallet. *)
Lemma countItemsByKind_summary_witness :
  ∃ summary,
    PgComponent.countItemsByKind Sample.healthy
    = ([Query PgComponent.kinds_text []], Returned summary)
    ∧ StronglySorted Z.lt (PgComponent.kind_id <$> summary)
    ∧ Dashboard.totalItems summary = Int 6.
Proof.
  destruct (countItemsByKind_summary Sample.healthy eq_refl)
    as (summary & Hrun & _ & Hsorted & _ & Htotal).
  exists summary. split; [exact Hrun |]. split; [exact Hsorted |].
  exact Htotal.
Defined.

(** ** countItemsByCategory *)

Section count_by_category.

Import PgComponent Grouping.

Global Instance encode_group_inj : Inj (=) (=) encode_group.
Proof.
  intros [[c1 n1] k1] [[c2 n2] k2]. unfold encode_group. simpl.
  intros [= Hc Hn ->].
  assert (c1 = c2) as ->.
  { destruct c1, c2; try discriminate; [| done].
    injection Hc as Hc. f_equal. by apply (inj encode_hex). }
  assert (n1 = n2) as ->; [| done].
  destruct n1, n2; try discriminate; [| done].
  injection Hn as Hn. f_equal. by apply (inj encode_escape).
Qed.

Lemma category_key_item i :
  category_key (to_item_data i) = encode_group (item_group i).
Proof. done. Qed.

(** Selecting a group among the encoded rows selects the items of the
    triple. *)
Lemma filter_encoded_group (all : list Item.t) (t : triple) :
  filter (λ r, category_key r = encode_group t) (to_item_data <$> all)
  = to_item_data <$> members all t.
Proof.
  unfold members. induction all as [| i all IH]; [done |].
  rewrite fmap_cons, !filter_cons, category_key_item.
  destruct (decide (encode_group (item_group i) = encode_group t))
    as [Heq | Hne], (decide (item_group i = t)) as [Heq' | Hne'].
  - by rewrite fmap_cons, IH.
  - by apply (inj encode_group) in Heq.
  - by rewrite Heq' in Hne.
  - done.
Qed.

Lemma length_positive (s : string) :
  (0 <? Z.of_nat (String.length s)) = truthy s.
Proof. destruct s; [done |]. simpl. apply Z.ltb_lt. lia. Qed.

(** The label is the stripped text rendering of the name, or "Unknown"
    when nothing is left of it. *)
Lemma credentialType_stripped (name : option bytea) :
  credentialType (encode_escape <$> name)
  = if truthy (stripped_name name) then stripped_name name else "Unknown".
Proof.
  destruct name as [b |]; [| done].
  change (encode_escape <$> Some b) with (Some (encode_escape b)).
  unfold credentialType, stripped_name. rewrite !length_positive.
  destruct (encode_escape b) as [| c text]; [done |].
  change (truthy (String c text)) with true. done.
Qed.

Lemma format_category_group (all : list Item.t) (t : triple) :
  format_category
    (category_aggregate (encode_group t, to_item_data <$> members all t))
  = summary_of_group all t.
Proof.
  unfold format_category, category_aggregate, summary_of_group, count_star.
  cbn [cat_category_hex cat_name_text cat_count cat_kind cat_item_ids
       fst snd encode_group].
  rewrite parseInt_int8_text, credentialType_stripped, length_fmap.
  f_equal. rewrite <-list_fmap_compose. done.
Qed.

Lemma format_category_order a b :
  category_order a b →
  summary_order (format_category a) (format_category b).
Proof.
  unfold category_order, summary_order, format_category.
  cbn [count category_hex]. by rewrite !parseInt_int8_text.
Qed.

(** What countItemsByCategory returns when its statement succeeds: the
    summary rows of the distinct triples of the table, sorted. *)
Lemma countItemsByCategory_rows (p : pool) :
  fault p categories_text [] = None →
  ∃ groups,
    groups ≡ₚ remove_dups (item_group <$> items (db p))
    ∧ countItemsByCategory p
      = ([Query categories_text []],
         Returned (summary_of_group (items (db p)) <$> groups))
    ∧ StronglySorted summary_order
        (summary_of_group (items (db p)) <$> groups).
Proof.
  intros Hfault.
  destruct (order_by_group_by category_key category_aggregate
              category_order (to_item_data <$> items (db p)))
    as (ks & Hperm & Hrows).
  rewrite <-list_fmap_compose in Hperm.
  change (category_key ∘ to_item_data) with (encode_group ∘ item_group)
    in Hperm.
  rewrite list_fmap_compose in Hperm.
  rewrite (remove_dups_fmap_inj encode_group) in Hperm.
  apply Permutation_map_inv in Hperm as (groups & -> & Hgroups).
  assert (order_by category_order
            (category_aggregate
             <$> group_by category_key (to_item_data <$> items (db p)))
          = (λ t, category_aggregate
                    (encode_group t,
                     to_item_data <$> members (items (db p)) t))
            <$> groups) as Hsql.
  { rewrite Hrows, <-list_fmap_compose. apply list_fmap_ext.
    intros _ t _. simpl. by rewrite filter_encoded_group. }
  assert (format_category
          <$> order_by category_order
                (category_aggregate
                 <$> group_by category_key (to_item_data <$> items (db p)))
          = summary_of_group (items (db p)) <$> groups) as Hformatted.
  { rewrite Hsql, <-list_fmap_compose. apply list_fmap_ext.
    intros _ t _. apply format_category_group. }
  exists groups. split; [by symmetry |]. split.
  - unfold countItemsByCategory, pool_query, categories_meaning.
    rewrite Hfault. cbn. by rewrite Hformatted.
  - rewrite <-Hformatted.
    apply (StronglySorted_fmap format_category category_order);
      [apply format_category_order |].
    apply StronglySorted_merge_sort; apply _.
Qed.

End count_by_category.

(** C4 (amended): when the statement succeeds, countItemsByCategory returns
    one row per distinct (category, name, kind) triple of the items table,
    ordered by count descending and then by category (its hexadecimal text)
    ascending.  The credential_type of a row is the escape-text rendering of
    the name with the characters outside 0x20-0x7E removed, and it is exactly
    "Unknown" whenever nothing is left, which includes a name made only of
    control bytes (0x01-0x1F, 0x7F).  A byte 0x00 or 0x80-0xFF is not such a
    case: its rendering is a printable octal escape. *)
Theorem countItemsByCategory_summary (p : pool) :
  fault p PgComponent.categories_text [] = None →
  ∃ groups,
    NoDup groups
    ∧ (∀ t, t ∈ groups ↔ ∃ i, i ∈ items (db p) ∧ Grouping.item_group i = t)
    ∧ PgComponent.countItemsByCategory p
      = ([Query PgComponent.categories_text []],
         Returned (Grouping.summary_of_group (items (db p)) <$> groups))
    ∧ StronglySorted Grouping.summary_order
        (Grouping.summary_of_group (items (db p)) <$> groups)
    ∧ (∀ t, t ∈ groups →
         (Grouping.stripped_name t.1.2 = EmptyString →
          PgComponent.credential_type
            (Grouping.summary_of_group (items (db p)) t) = "Unknown")
         ∧ (Grouping.stripped_name t.1.2 ≠ EmptyString →
            PgComponent.credential_type
              (Grouping.summary_of_group (items (db p)) t)
            = Grouping.stripped_name t.1.2)
         ∧ (∀ b, t.1.2 = Some b →
                 forallb Decode.is_control_byte b = true →
                 PgComponent.credential_type
                   (Grouping.summary_of_group (items (db p)) t)
                 = "Unknown")).
Proof.
  intros Hfault.
  destruct (countItemsByCategory_rows p Hfault)
    as (groups & Hperm & Hrun & Hsorted).
  exists groups. split; [rewrite Hperm; apply NoDup_remove_dups |].
  split; [| split; [done | split; [done |]]].
  - intros t. rewrite Hperm, elem_of_remove_dups, list_elem_of_fmap.
    split; [intros (i & -> & Hi) | intros (i & Hi & <-)]; eauto.
  - intros t _. cbn. split; [by intros -> | split].
    + intros Hne. by destruct (Grouping.stripped_name t.1.2).
    + intros b -> Hcontrol. unfold Grouping.stripped_name.
      by rewrite escape_control_bytes_stripped.
Qed.

(** The categories of the sample wallet. *)
Lemma countItemsByCategory_summary_witness :
  ∃ groups,
    NoDup groups
    ∧ PgComponent.countItemsByCategory Sample.healthy
      = ([Query PgComponent.categories_text []],
         Returned (Grouping.summary_of_group Sample.wallet <$> groups))
    ∧ StronglySorted Grouping.summary_order
        (Grouping.summary_of_group Sample.wallet <$> groups).
Proof.
  destruct (countItemsByCategory_summary Sample.healthy eq_refl)
    as (groups & Hnodup & _ & Hrun & Hsorted & _).
  exists groups. split; [exact Hnodup |]. split; [exact Hrun |].
  exact Hsorted.
Defined.

(** Against C4 as stated: the only name byte of the only item is 0x80,
    outside 0x20-0x7E, and the label is the four characters of its octal
    escape, not "Unknown". *)
Lemma high_bit_name_is_not_unknown :
  forallb Decode.is_unprintable_byte [x80] = true
  ∧ PgComponent.countItemsByCategory Sample.high_bit
    = ([Query PgComponent.categories_text []],
       Returned
         [ {| PgComponent.category_hex := Some "63";
              PgComponent.credential_type := "\200";
              PgComponent.count := Int 1;
              PgComponent.summary_kind := "Credential";
              PgComponent.item_ids := [1] |} ])
  ∧ "\200" ≠ "Unknown".
Proof. split; [reflexivity | split; [reflexivity | discriminate]]. Qed.

(** C10: when the statement succeeds, the rows returned by
    countItemsByCategory stand one to one for the (category, name, kind)
    triples that occur in the table: there is a list of these triples, each
    one once, of which the rows are the images in order.  The row of a
    triple has the category of the triple in hexadecimal, the label made from
    its name, the label of its kind, as item_ids the identifiers of exactly
    the items with that triple (in table order), and as count the length of
    its item_ids. *)
Theorem countItemsByCategory_item_ids (p : pool) :
  fault p PgComponent.categories_text [] = None →
  ∃ groups rows,
    PgComponent.countItemsByCategory p
    = ([Query PgComponent.categories_text []], Returned rows)
    ∧ NoDup groups
    ∧ (∀ t, t ∈ groups ↔ ∃ i, i ∈ items (db p) ∧ Grouping.item_group i = t)
    ∧ Forall2
        (λ t row,
           PgComponent.category_hex row = encode_hex <$> t.1.1
           ∧ PgComponent.credential_type row
             = (if truthy (Grouping.stripped_name t.1.2)
                then Grouping.stripped_name t.1.2
                else "Unknown")
           ∧ PgComponent.summary_kind row = PgComponent.formatKind t.2
           ∧ PgComponent.item_ids row
             = Item.id
               <$> filter (λ i, Grouping.item_group i = t) (items (db p))
           ∧ PgComponent.count row
             = Int (Z.of_nat (length (PgComponent.item_ids row))))
        groups rows.
Proof.
  intros Hfault.
  destruct (countItemsByCategory_rows p Hfault)
    as (groups & Hperm & Hrun & _).
  exists groups. eexists. split; [exact Hrun |].
  split; [rewrite Hperm; apply NoDup_remove_dups |]. split.
  - intros t. rewrite Hperm, elem_of_remove_dups, list_elem_of_fmap.
    split; intros (i & ? & ?); exists i; done.
  - apply Forall2_fmap_r, Forall_Forall2_diag, Forall_forall.
    intros t _. cbn. repeat split. by rewrite length_fmap.
Qed.

(** The rows of the sample wallet: five groups, that of the two degree
    credentials first. *)
Lemma countItemsByCategory_item_ids_witness :
  ∃ (groups : list Grouping.triple) rows,
    PgComponent.countItemsByCategory Sample.healthy
    = ([Query PgComponent.categories_text []], Returned rows)
    ∧ length groups = 5%nat
    ∧ PgComponent.item_ids <$> rows = [[1; 3]; [2]; [6]; [5]; [4]].
Proof.
  destruct (countItemsByCategory_item_ids Sample.healthy eq_refl)
    as (groups & rows & Hrun & _ & _ & Hrows).
  exists groups, rows. split; [exact Hrun |].
  assert (rows = match (PgComponent.countItemsByCategory Sample.healthy).2 with
                 | Returned found => found
                 | Thrown _ => []
                 end) as Hvalue by (by rewrite Hrun).
  vm_compute in Hvalue. split.
  - apply Forall2_length in Hrows. etrans; [exact Hrows |].
    rewrite Hvalue. reflexivity.
  - rewrite Hvalue. reflexivity.
Defined.

(** ** getAllItems *)

Section all_items.

Import PgComponent.

(** A binary column as [getAllItems] shows it: its escape text, or the
    placeholder when the column is NULL or empty. *)
Lemma or_else_escape (column : option bytea) :
  or_else (encode_escape <$> column) "[Binary data]"
  = match column with
    | Some (x :: rest) => encode_escape (x :: rest)
    | Some [] | None => "[Binary data]"
    end.
Proof.
  destruct column as [[| x rest] |]; [done | | done].
  change (encode_escape <$> Some (x :: rest))
    with (Some (encode_escape (x :: rest))).
  unfold or_else.
  destruct (encode_escape (x :: rest)) eqn:Htext; [| done].
  by apply encode_escape_nil in Htext.
Qed.

End all_items.

(** C5 (amended): when the statement succeeds, getAllItems returns one
    element per row of the items table, in table order and leaving none out.
    In the PostgreSQL component the element of an item has the item's id and
    profile, the label of its kind, its category in hexadecimal, and for name
    and value the escape text of the column, or "[Binary data]" when the
    column is NULL or empty (no text to show).  The MySQL component renders
    nothing: it returns the rows of the table as they are stored, every one
    of them. *)
Theorem getAllItems_formats_every_item (p q : pool) :
  fault p PgComponent.items_text [] = None →
  fault q MysqlComponent.items_text [] = None →
  (∃ rows,
     PgComponent.getAllItems p
     = ([Query PgComponent.items_text []], Returned rows)
     ∧ length rows = length (items (db p))
     ∧ ∀ n i, items (db p) !! n = Some i →
         ∃ row,
           rows !! n = Some row
           ∧ PgComponent.id row = Item.id i
           ∧ PgComponent.kind row = PgComponent.formatKind (Item.kind i)
           ∧ PgComponent.profile_id row = Item.profile_id i
           ∧ PgComponent.category row = encode_hex <$> Item.category i
           ∧ PgComponent.name row
             = match Item.name i with
               | Some (x :: rest) => encode_escape (x :: rest)
               | Some [] | None => "[Binary data]"
               end
           ∧ PgComponent.value row
             = match Item.value i with
               | Some (x :: rest) => encode_escape (x :: rest)
               | Some [] | None => "[Binary data]"
               end)
  ∧ MysqlComponent.getAllItems q
    = ([Query MysqlComponent.items_text []], Returned (items (db q))).
Proof.
  intros Hp Hq. split.
  - eexists. split.
    { unfold PgComponent.getAllItems, pool_query, PgComponent.items_meaning.
      rewrite Hp. reflexivity. }
    split; [by rewrite !length_fmap |].
    intros n i Hi. eexists. split.
    { rewrite !list_lookup_fmap, Hi. reflexivity. }
    cbn. by rewrite !or_else_escape.
  - unfold MysqlComponent.getAllItems, pool_query. by rewrite Hq.
Qed.

(** The first item of the sample wallet. *)
Lemma getAllItems_formats_every_item_witness :
  ∃ rows,
    PgComponent.getAllItems Sample.healthy
    = ([Query PgComponent.items_text []], Returned rows)
    ∧ length rows = 6%nat
    ∧ MysqlComponent.getAllItems Sample.healthy
      = ([Query MysqlComponent.items_text []], Returned Sample.wallet).
Proof.
  destruct (getAllItems_formats_every_item Sample.healthy Sample.healthy
              eq_refl eq_refl) as ((rows & Hrun & Hlength & _) & Hmysql).
  exists rows. split; [exact Hrun |]. split; [exact Hlength | exact Hmysql].
Defined.

(** The MySQL component on the sample wallet: the category of the first item
    comes back as the four stored bytes, not as the text "63726564", and the
    NULL name of the sixth item and the NULL value of the fourth come back as
    NULL, not as "[Binary data]"; the route then writes them as a Buffer and
    as null. *)
Lemma mysql_getAllItems_returns_stored_bytes :
  ∃ rows,
    MysqlComponent.getAllItems Sample.healthy
    = ([Query MysqlComponent.items_text []], Returned rows)
    ∧ Item.category <$> rows !! 0%nat = Some (Some [x63; x72; x65; x64])
    ∧ encode_hex [x63; x72; x65; x64] = "63726564"
    ∧ Item.name <$> rows !! 5%nat = Some None
    ∧ Item.value <$> rows !! 3%nat = Some None
    ∧ (∀ first, rows !! 0%nat = Some first →
         ∃ before after,
           Router.json_of_raw_item first
           = JObj (before
                   ++ ("category",
                       JObj [ ("type", JStr "Buffer");
                              ("data", JArr [JNum 99; JNum 114; JNum 101;
                                             JNum 100]) ])
                      :: after))
    ∧ (∀ sixth, rows !! 5%nat = Some sixth →
         ∃ before after,
           Router.json_of_raw_item sixth
           = JObj (before ++ ("name", JNull) :: after)).
Proof.
  exists Sample.wallet. split; [reflexivity |].
  split; [reflexivity |]. split; [reflexivity |].
  split; [reflexivity |]. split; [reflexivity |]. split.
  - intros first [= <-]. by eexists [_; _; _], _.
  - intros sixth [= <-]. by eexists [_; _; _; _], _.
Qed.

(** ** getItemById *)

Lemma head_filter {A} (P : A → Prop) `{∀ x, Decision (P x)} (l : list A) :
  match head (filter P l) with
  | Some x => x ∈ l ∧ P x
  | None => ∀ x, x ∈ l → ¬ P x
  end.
Proof.
  destruct (filter P l) as [| x rest] eqn:Hfilter; simpl.
  - intros x Hx HP.
    assert (x ∈ filter P l) as Hin by (apply list_elem_of_filter; done).
    rewrite Hfilter in Hin. by apply elem_of_nil in Hin.
  - assert (x ∈ filter P l) as Hin by (rewrite Hfilter; left).
    apply list_elem_of_filter in Hin as [? ?]. done.
Qed.

Lemma first_or_null {A} (rows : list A) :
  (if decide (length rows = 0%nat) then None else head rows) = head rows.
Proof. by destruct rows. Qed.

(** C6: in both implementations, when the statement succeeds getItemById
    returns (never throws): it returns an item of the table whose id is the
    one asked for when there is one, and null when no row has that id. *)
Theorem getItemById_found_or_null (p q : pool) (id : Z) :
  fault p PgComponent.item_by_id_text [SqlNumber (Int id)] = None →
  fault q MysqlComponent.item_by_id_text [SqlNumber (Int id)] = None →
  (∃ found,
     PgComponent.getItemById p id
     = ([Query PgComponent.item_by_id_text [SqlNumber (Int id)]],
        Returned found)
     ∧ match found with
       | Some i => i ∈ items (db p) ∧ Item.id i = id
       | None => ∀ i, i ∈ items (db p) → Item.id i ≠ id
       end)
  ∧ (∃ found,
       MysqlComponent.getItemById q id
       = ([Query MysqlComponent.item_by_id_text [SqlNumber (Int id)]],
          Returned found)
       ∧ match found with
         | Some i => i ∈ items (db q) ∧ Item.id i = id
         | None => ∀ i, i ∈ items (db q) → Item.id i ≠ id
         end).
Proof.
  intros Hp Hq. split; eexists; split.
  - unfold PgComponent.getItemById, pool_query,
      PgComponent.item_by_id_meaning.
    rewrite Hp. cbn. rewrite first_or_null. reflexivity.
  - apply (head_filter (λ i, Item.id i = id)).
  - unfold MysqlComponent.getItemById, pool_query.
    rewrite Hq. cbn. rewrite first_or_null. reflexivity.
  - apply (head_filter (λ i, Item.id i = id)).
Qed.

(** Item 3 is in the sample wallet, item 99 is not. *)
Lemma getItemById_found_or_null_witness :
  (∃ i, (PgComponent.getItemById Sample.healthy 3).2 = Returned (Some i)
        ∧ Item.id i = 3)
  ∧ (PgComponent.getItemById Sample.healthy 99).2 = Returned None
  ∧ (MysqlComponent.getItemById Sample.healthy 99).2 = Returned None.
Proof.
  destruct (getItemById_found_or_null Sample.healthy Sample.healthy 3
              eq_refl eq_refl) as [(found & Hrun & Hfound) _].
  split.
  - destruct found as [i |] eqn:Hcase.
    + exists i. split; [by rewrite Hrun | apply Hfound].
    + discriminate Hrun.
  - split; reflexivity.
Defined.

(** ** getTableData *)

Section table_data.

Import PgComponent.

(** The class [a-zA-Z0-9_] spelled out. *)
Lemma identifier_class (c : ascii) :
  is_identifier_char c
  = bool_decide
      (c ∈ list_ascii_of_string
             "abcdefghijklmnopqrstuvwxyzABCDEFGHIJKLMNOPQRSTUVWXYZ0123456789_").
Proof. destruct c as [[] [] [] [] [] [] [] []]; reflexivity. Qed.

(** [replace] with the global flag keeps exactly the characters of the
    class, in order. *)
Lemma remove_outside_filter (class : ascii → bool) (s : string) :
  list_ascii_of_string (remove_outside class s)
  = filter (λ c, class c = true) (list_ascii_of_string s).
Proof.
  induction s as [| c s IH]; [done |]. simpl. rewrite filter_cons.
  destruct (class c) eqn:Hc.
  - rewrite decide_True by done. simpl. by rewrite IH.
  - rewrite decide_False by done. exact IH.
Qed.

Lemma remove_outside_idempotent (class : ascii → bool) (s : string) :
  remove_outside class (remove_outside class s) = remove_outside class s.
Proof.
  induction s as [| c s IH]; [done |]. simpl.
  destruct (class c) eqn:Hc; [| done]. simpl. by rewrite Hc, IH.
Qed.

Lemma getTableData_events (p : pool) (tableName : string) (limit : number) :
  (getTableData p tableName limit).1
  = [Query (table_data_text (safeTableName tableName)) [SqlNumber limit]].
Proof.
  unfold getTableData, pool_query.
  destruct (fault p _ _); [done |].
  by destruct (table_data_meaning _ _ _).
Qed.

End table_data.

(** C2: whatever the table name, getTableData sends one statement and never
    rejects the name: the statement is the fixed text around the stripped
    name, the stripped name is the input with exactly the characters outside
    [A-Za-z0-9_] left out, and the call behaves as it does on the stripped
    name.  On "items; DROP TABLE x" the statement sent names
    itemsDROPTABLEx. *)
Theorem getTableData_sanitizes (p : pool) (tableName : string)
  (limit : number) :
  (PgComponent.getTableData p tableName limit).1
  = [Query ("SELECT * FROM postgres."
            +:+ PgComponent.safeTableName tableName +:+ " LIMIT $1")
       [SqlNumber limit]]
  ∧ list_ascii_of_string (PgComponent.safeTableName tableName)
    = filter
        (λ c, c ∈ list_ascii_of_string
                    "abcdefghijklmnopqrstuvwxyzABCDEFGHIJKLMNOPQRSTUVWXYZ0123456789_")
        (list_ascii_of_string tableName)
  ∧ PgComponent.getTableData p tableName limit
    = PgComponent.getTableData p (PgComponent.safeTableName tableName) limit
  ∧ (PgComponent.getTableData p "items; DROP TABLE x" limit).1
    = [Query "SELECT * FROM postgres.itemsDROPTABLEx LIMIT $1"
         [SqlNumber limit]].
Proof.
  split; [| split; [| split]].
  - apply getTableData_events.
  - unfold PgComponent.safeTableName. rewrite remove_outside_filter.
    apply list_filter_iff. intros c. rewrite identifier_class.
    apply bool_decide_eq_true.
  - unfold PgComponent.getTableData, PgComponent.safeTableName.
    by rewrite remove_outside_idempotent.
  - apply getTableData_events.
Qed.

(** ** The routes *)

Section items_route.

Import PgComponent.


End items_route.




(** C8: whenever the contactEmail field of the body fails the e-mail
    validator, the reservation-confirmation route answers with status 422 and
    a body whose errors array holds an entry for the field contactEmail, and
    it does nothing else: the e-mail collaborator is not called. *)
Theorem reservationConfirmation_invalid_email
  (isEmail isEmpty : option json → bool)
  (sendConfirmationEmail : gmap string json → outcome json)
  (req_body : gmap string json) :
  isEmail (req_body !! "contactEmail") = false →
  ∃ errors,
    Router.reservationConfirmation isEmail isEmpty sendConfirmationEmail
      req_body
    = ([Respond 422
          (JObj [("errors",
                  JArr (Router.json_of_validation_error <$> errors))])],
       Returned ())
    ∧ (∃ entry, entry ∈ errors ∧ Router.path entry = "contactEmail"
                ∧ Router.location entry = "body")
    ∧ ∀ sent,
        EmailCall sent
        ∉ (Router.reservationConfirmation isEmail isEmpty
             sendConfirmationEmail req_body).1.
Proof.
  intros Hemail.
  exists (Router.confirmation_errors isEmail isEmpty req_body).
  assert (∃ entry rest,
            Router.confirmation_errors isEmail isEmpty req_body
            = entry :: rest
            ∧ Router.path entry = "contactEmail"
            ∧ Router.location entry = "body") as (entry & rest & Herrors & ?).
  { unfold Router.confirmation_errors, Router.body_check.
    rewrite Hemail. eauto. }
  assert (Router.reservationConfirmation isEmail isEmpty sendConfirmationEmail
            req_body
          = ([Respond 422
                (JObj [("errors",
                        JArr (Router.json_of_validation_error
                              <$> Router.confirmation_errors isEmail isEmpty
                                    req_body))])],
             Returned ())) as Hrun.
  { unfold Router.reservationConfirmation. by rewrite Herrors. }
  split; [exact Hrun |]. split.
  - exists entry. rewrite Herrors. split; [left | done].
  - intros sent. rewrite Hrun. cbn.
    intros [Heq | Hin]%elem_of_cons; [discriminate | by apply elem_of_nil in Hin].
Qed.

(** A body whose contactEmail is the text "not-an-email", under a validator
    that asks for a text with an at sign. *)
Lemma reservationConfirmation_invalid_email_witness :
  ∃ errors,
    Router.reservationConfirmation Sample.has_at_sign Sample.is_missing
      Sample.mailer Sample.bad_request
    = ([Respond 422
          (JObj [("errors",
                  JArr (Router.json_of_validation_error <$> errors))])],
       Returned ()).
Proof.
  destruct (reservationConfirmation_invalid_email Sample.has_at_sign
              Sample.is_missing Sample.mailer Sample.bad_request eq_refl)
    as (errors & Hrun & _).
  exists errors. exact Hrun.
Defined.

(** ** Failures of the query component *)

Section failures.

Import PgComponent.

(** An operation made of one statement in a [try] whose [catch] rethrows:
    it sends the statement, and a failure of the statement is the failure
    of the operation. *)
Lemma single_statement_run {R B} (p : pool) (text : string)
  (params : list sql_value) (meaning : database → outcome (list R))
  (f : list R → B) :
  try_io (rows ← pool_query p text params meaning; mret (f rows))
    (λ error, throw error)
  = ([Query text params],
     match fault p text params with
     | Some e => Thrown e
     | None =>
         match meaning (db p) with
         | Returned rows => Returned (f rows)
         | Thrown e => Thrown e
         end
     end).
Proof.
  unfold pool_query. destruct (fault p text params); [done |].
  by destruct (meaning (db p)).
Qed.

Lemma getTables_run (p : pool) :
  getTables p
  = ([Query tables_text []],
     match fault p tables_text [] with
     | Some e => Thrown e
     | None => Returned (public_tables (db p))
     end).
Proof.
  unfold getTables. rewrite single_statement_run.
  destruct (fault p tables_text []); [done |].
  by rewrite fmap_identity.
Qed.

Lemma getTableSchema_run (p : pool) (tableName : string) :
  getTableSchema p tableName
  = ([Query schema_text [SqlText tableName]],
     match fault p schema_text [SqlText tableName] with
     | Some e => Thrown e
     | None => Returned (columns (db p) tableName)
     end).
Proof. unfold getTableSchema. by rewrite single_statement_run. Qed.

Lemma getTableData_run (p : pool) (tableName : string) (limit : number) :
  getTableData p tableName limit
  = ([Query (table_data_text (safeTableName tableName)) [SqlNumber limit]],
     match fault p (table_data_text (safeTableName tableName))
             [SqlNumber limit] with
     | Some e => Thrown e
     | None => table_data_meaning (safeTableName tableName) limit (db p)
     end).
Proof.
  unfold getTableData. cbn zeta. rewrite single_statement_run.
  destruct (fault p _ _); [done |].
  by destruct (table_data_meaning _ _ _).
Qed.

(** [LIMIT 5] yields at most five rows. *)
Lemma table_data_at_most_five (p : pool) (tableName : string)
  (rows : list raw_row) :
  (getTableData p tableName (Int 5)).2 = Returned rows →
  (length rows ≤ 5)%nat.
Proof.
  rewrite getTableData_run. cbn [snd].
  destruct (fault p _ _); [done |]. unfold table_data_meaning.
  destruct (relations (db p) _) as [all |]; [| done]. cbn.
  intros [= <-]. rewrite length_take. lia.
Qed.

(** The loop over the important tables: two statements per table at most,
    and on completion one detail per table, of at most five rows. *)
Lemma sample_tables_run (p : pool) (names : list string)
  (details : list table_detail) :
  ∃ evs r,
    sample_tables p names details = (evs, r)
    ∧ (length evs ≤ 2 * length names)%nat
    ∧ Forall (λ ev, ∃ n, n ∈ names
                ∧ (ev = Query schema_text [SqlText n]
                   ∨ ev = Query (table_data_text (safeTableName n))
                            [SqlNumber (Int 5)])) evs
    ∧ match r with
      | Returned all =>
          ∃ new,
            all = details ++ new
            ∧ detail_name <$> new = names
            ∧ Forall (λ d, (length (sampleData d) ≤ 5)%nat) new
      | Thrown e => True
      end.
Proof.
  revert details. induction names as [| n names IH]; intros details.
  { exists [], (Returned details). repeat split; [done | constructor |].
    exists []. by rewrite app_nil_r. }
  cbn [sample_tables]. rewrite getTableSchema_run.
  destruct (fault p schema_text [SqlText n]) as [e |].
  { exists [Query schema_text [SqlText n]], (Thrown e).
    repeat split; [simpl; lia |].
    constructor; [| constructor]. exists n. split; [left | by left]. }
  pose proof (table_data_at_most_five p n) as Hfive.
  rewrite getTableData_run in Hfive |- *. cbn [snd] in Hfive.
  destruct (match fault p (table_data_text (safeTableName n))
                    [SqlNumber (Int 5)] with
            | Some e => Thrown e
            | None => table_data_meaning (safeTableName n) (Int 5) (db p)
            end) as [data | e].
  2:{ exists [Query schema_text [SqlText n];
              Query (table_data_text (safeTableName n)) [SqlNumber (Int 5)]],
        (Thrown e).
      repeat split; [simpl; lia |].
      repeat constructor; exists n; (split; [left | auto]). }
  destruct (IH (details
                ++ [ {| detail_name := n;
                        detail_schema := columns (db p) n;
                        sampleData := data;
                        rowCount := Z.of_nat (length data) |} ]))
    as (evs & r & Hrun & Hlength & Hevents & Hresult).
  exists (Query schema_text [SqlText n]
          :: Query (table_data_text (safeTableName n)) [SqlNumber (Int 5)]
          :: evs), r.
  split; [| split; [simpl; lia | split]].
  - cbn. by rewrite Hrun.
  - repeat (constructor; [exists n; (split; [left | auto]) |]).
    eapply Forall_impl; [exact Hevents |].
    intros ev (n' & Hn' & Hev). exists n'. split; [by right | done].
  - destruct r as [all | e]; [| done].
    destruct Hresult as (new & -> & Hnames & Hnew).
    eexists (_ :: new). split; [by rewrite <-app_assoc |].
    split; [by rewrite fmap_cons, Hnames |].
    constructor; [by apply Hfive | done].
Qed.

End failures.

(** ** Worked examples *)

Example formatKind_credential : PgComponent.formatKind 2 = "Credential".
Proof. reflexivity. Qed.

Example formatKind_unmapped :
  PgComponent.formatKind 7 = "Type 7"
  ∧ PgComponent.formatKind 0 = "Type 0"
  ∧ PgComponent.formatKind (-3) = "Type -3".
Proof. repeat split. Qed.

Example parseInt_examples :
  parseInt "42" = Int 42
  ∧ parseInt " -0x1f" = Int (-31)
  ∧ parseInt "12px" = Int 12
  ∧ parseInt "abc" = NaN.
Proof. repeat split. Qed.

Example encode_examples :
  encode_hex [x63; x0a; xff] = "630aff"
  ∧ encode_escape [x61; x00; x5c; xe9] = "a\000\\\351".
Proof. split; reflexivity. Qed.

Example sample_kinds :
  (PgComponent.countItemsByKind Sample.healthy).2
  = Returned
      [ PgComponent.KindSummary "Connection" 1 (Int 1);
        PgComponent.KindSummary "Credential" 2 (Int 3);
        PgComponent.KindSummary "Key" 4 (Int 1);
        PgComponent.KindSummary "Type 7" 7 (Int 1) ].
Proof. reflexivity. Qed.

Example sample_categories :
  PgComponent.credential_type
  <$> match (PgComponent.countItemsByCategory Sample.healthy).2 with
      | Returned rows => rows
      | Thrown _ => []
      end
  = ["degree"; "alice"; "Unknown"; "\200\000\\"; "Unknown"].
Proof. reflexivity. Qed.

Example sample_table_data :
  PgComponent.getTableData Sample.healthy "profiles; --" (Int 1)
  = ([Query "SELECT * FROM postgres.profiles LIMIT $1" [SqlNumber (Int 1)]],
     Returned [ [("id", SqlNumber (Int 10))] ]).
Proof. reflexivity. Qed.

Example sample_items_route_mysql :
  (Router.getItems ∅ MysqlComponent.getAllItems Router.json_of_raw_item
     Sample.unreachable).1
  = [ Query MysqlComponent.items_text [];
      Respond 500
        (JObj [ ("error", JStr "Database error");
                ("details", JStr "connect ECONNREFUSED 127.0.0.1:5432");
                ("config",
                 JObj [ ("host", JStr "localhost");
                        ("port", JStr "5432");
                        ("database", JStr "askar-wallet") ]) ]);
      Next (Error "connect ECONNREFUSED 127.0.0.1:5432" EmptyString) ].
Proof. reflexivity. Qed.

Example sample_reservation_accepted :
  (Router.reservationConfirmation Sample.has_at_sign Sample.is_missing
     Sample.mailer
     (<["contactEmail" := JStr "a@b.c"]> Sample.bad_request)).1
  = [ EmailCall (<["contactEmail" := JStr "a@b.c"]> Sample.bad_request);
      Respond 200 (JStr "sent") ].
Proof. reflexivity. Qed.

(** * Further properties *)

(** ** Labels *)

Lemma type_label_inj (a b : Z) :
  "Type " +:+ to_string a = "Type " +:+ to_string b → a = b.
Proof.
  change ("Type " +:+ to_string a)
    with (String "T" (String "y" (String "p" (String "e"
            (String " " (pretty a)))))).
  change ("Type " +:+ to_string b)
    with (String "T" (String "y" (String "p" (String "e"
            (String " " (pretty b)))))).
  intros [= Heq]. by apply (inj pretty).
Qed.

Lemma formatKind_fixed_or_other (kind : Z) :
  (kind = 1 ∨ kind = 2 ∨ kind = 3 ∨ kind = 4 ∨ kind = 5)
  ∨ PgComponent.formatKind kind = "Type " +:+ to_string kind.
Proof.
  assert ((kind = 1 ∨ kind = 2 ∨ kind = 3 ∨ kind = 4 ∨ kind = 5)
          ∨ (kind ≠ 1 ∧ kind ≠ 2 ∧ kind ≠ 3 ∧ kind ≠ 4 ∧ kind ≠ 5))
    as [? | (? & ? & ? & ? & ?)] by lia; [by left |].
  right. by apply formatKind_other.
Qed.

(** A fallback label is none of the five fixed labels. *)
Lemma type_label_not_fixed (kind fixed : Z) :
  fixed = 1 ∨ fixed = 2 ∨ fixed = 3 ∨ fixed = 4 ∨ fixed = 5 →
  PgComponent.formatKind fixed ≠ "Type " +:+ to_string kind.
Proof.
  change ("Type " +:+ to_string kind)
    with (String "T" (String "y" (String "p" (String "e"
            (String " " (pretty kind)))))).
  intros [-> | [-> | [-> | [-> | ->]]]]; discriminate.
Qed.

(** X1: formatKind gives different labels to different kind codes: a label
    identifies its code. *)
Theorem formatKind_injective (a b : Z) :
  a ≠ b → PgComponent.formatKind a ≠ PgComponent.formatKind b.
Proof.
  intros Hne Heq. apply Hne.
  destruct (formatKind_fixed_or_other a) as [Ha | Ha],
    (formatKind_fixed_or_other b) as [Hb | Hb].
  - destruct Ha as [-> | [-> | [-> | [-> | ->]]]],
      Hb as [-> | [-> | [-> | [-> | ->]]]];
      first [ reflexivity | discriminate Heq ].
  - rewrite Hb in Heq. by apply type_label_not_fixed in Heq.
  - rewrite Ha in Heq. symmetry in Heq. by apply type_label_not_fixed in Heq.
  - rewrite Ha, Hb in Heq. by apply type_label_inj.
Qed.

(** The codes 5 and 7. *)
Lemma formatKind_injective_witness :
  PgComponent.formatKind 5 ≠ PgComponent.formatKind 7.
Proof. apply (formatKind_injective 5 7). discriminate. Defined.

(** The characters that [replace] keeps are in the class. *)
Lemma remove_outside_class (class : ascii → bool) (s : string) :
  Forall (λ c, class c = true)
    (list_ascii_of_string (remove_outside class s)).
Proof.
  rewrite remove_outside_filter. apply Forall_forall.
  by intros c [? _]%list_elem_of_filter.
Qed.

(** X2: the credential type label is never empty and holds only printable
    characters (codes 0x20 to 0x7E), whatever the text of the name. *)
Theorem credentialType_printable (name_text : option string) :
  PgComponent.credentialType name_text ≠ EmptyString
  ∧ Forall (λ c, (32 ≤ N_of_ascii c ≤ 126)%N)
      (list_ascii_of_string (PgComponent.credentialType name_text)).
Proof.
  assert (∀ c, is_printable c = true → (32 ≤ N_of_ascii c ≤ 126)%N)
    as Hprintable.
  { intros c. unfold is_printable, in_range.
    intros [?%N.leb_le ?%N.leb_le]%andb_prop. done. }
  assert (PgComponent.credentialType name_text = "Unknown"
          ∨ (PgComponent.credentialType name_text ≠ EmptyString
             ∧ ∃ text, PgComponent.credentialType name_text
                       = remove_outside is_printable text)) as Hcases.
  { destruct name_text as [text |]; [| by left].
    unfold PgComponent.credentialType. rewrite !length_positive.
    destruct (truthy text); [| by left]. cbn [andb].
    destruct (remove_outside is_printable text) eqn:Hclean; [by left |].
    right. split; [done |]. exists text. by rewrite Hclean. }
  revert Hcases. generalize (PgComponent.credentialType name_text).
  intros label [-> | [Hne [text ->]]].
  - split; [done |]. repeat constructor; by vm_compute.
  - split; [done |].
    eapply Forall_impl; [apply remove_outside_class | done].
Qed.

(** ** Groups partition the table *)

Section partition.

Context {A K : Type} `{EqDecision K} (key : A → K).

Lemma groups_without (r : A) (rows : list A) (ks : list K) :
  key r ∉ ks →
  (ks ≫= λ k, filter (λ r, key r = k) (r :: rows))
  = (ks ≫= λ k, filter (λ r, key r = k) rows).
Proof.
  induction ks as [| k ks IH]; [done |].
  intros [Hne Hnotin]%not_elem_of_cons. cbn [mbind list_bind].
  rewrite filter_cons_False by done. f_equal. by apply IH.
Qed.

Lemma groups_with (r : A) (rows : list A) (ks : list K) :
  NoDup ks → key r ∈ ks →
  (ks ≫= λ k, filter (λ r, key r = k) (r :: rows))
  ≡ₚ r :: (ks ≫= λ k, filter (λ r, key r = k) rows).
Proof.
  induction 1 as [| k ks Hnotin Hnodup IH]; [by intros ?%elem_of_nil |].
  intros Hin. cbn [mbind list_bind].
  destruct (decide (key r = k)) as [<- | Hne].
  - rewrite filter_cons_True by done. by rewrite groups_without.
  - rewrite filter_cons_False by done.
    apply elem_of_cons in Hin as [? | Hin]; [done |].
    rewrite IH by done. by rewrite Permutation_middle.
Qed.

(** The groups of distinct keys that cover the rows hold every row once. *)
Lemma groups_partition (rows : list A) (ks : list K) :
  NoDup ks → (∀ r, r ∈ rows → key r ∈ ks) →
  (ks ≫= λ k, filter (λ r, key r = k) rows) ≡ₚ rows.
Proof.
  intros Hnodup. induction rows as [| r rows IH]; intros Hkeys.
  - clear. induction ks as [| k ks IH]; [done |]. exact IH.
  - rewrite groups_with; [| done | apply Hkeys; by left].
    constructor. apply IH. intros; apply Hkeys; by right.
Qed.

End partition.

Lemma bind_after_fmap {A B C} (f : A → B) (g : B → list C) (l : list A) :
  (f <$> l) ≫= g = l ≫= (g ∘ f).
Proof.
  induction l as [| x l IH]; [done |].
  rewrite fmap_cons. cbn [mbind list_bind]. by rewrite IH.
Qed.

(** X3: when the statement succeeds, the item_ids lists of the rows of
    countItemsByCategory, put together, are the identifiers of the table up
    to order: every item is in exactly one row. *)
Theorem countItemsByCategory_partition (p : pool) :
  fault p PgComponent.categories_text [] = None →
  ∃ rows,
    (PgComponent.countItemsByCategory p).2 = Returned rows
    ∧ (rows ≫= PgComponent.item_ids) ≡ₚ Item.id <$> items (db p).
Proof.
  intros Hfault.
  destruct (countItemsByCategory_rows p Hfault)
    as (groups & Hperm & Hrun & _).
  eexists. split; [by rewrite Hrun |].
  rewrite bind_after_fmap.
  change (PgComponent.item_ids ∘ Grouping.summary_of_group (items (db p)))
    with (λ t, Item.id <$> Grouping.members (items (db p)) t).
  rewrite Hperm.
  rewrite <-(groups_partition Grouping.item_group (items (db p))
               (remove_dups (Grouping.item_group <$> items (db p)))) at 2.
  - generalize (remove_dups (Grouping.item_group <$> items (db p))).
    intros ts. induction ts as [| t ts IH]; [done |].
    cbn [mbind list_bind]. by rewrite fmap_app, IH.
  - apply NoDup_remove_dups.
  - intros i Hi. apply elem_of_remove_dups, list_elem_of_fmap. eauto.
Qed.

(** The six items of the sample wallet. *)
Lemma countItemsByCategory_partition_witness :
  ∃ rows,
    (PgComponent.countItemsByCategory Sample.healthy).2 = Returned rows
    ∧ (rows ≫= PgComponent.item_ids) ≡ₚ [1; 2; 3; 4; 5; 6].
Proof.
  exact (countItemsByCategory_partition Sample.healthy eq_refl).
Defined.

(** ** getItemsByProfileAndKind *)

Section analysis.

Import PgComponent.

Global Instance analysis_order_total : Total analysis_order.
Proof. intros a b. unfold analysis_order. lia. Qed.

Global Instance analysis_order_trans : Transitive analysis_order.
Proof. intros a b c. unfold analysis_order. lia. Qed.

(** The key of a joined row. *)
Lemma join_key_eq (ip : Item.t * Profile.t) (pid k : Z) :
  (Profile.id ip.2, Item.kind ip.1) = (pid, k)
  ↔ Profile.id ip.2 = pid ∧ Item.kind ip.1 = k.
Proof. split; [by intros [= -> ->] | by intros [-> ->]]. Qed.

(** The profiles an item joins with. *)
Lemma elem_of_join_item (i : Item.t) (ps : list Profile.t)
  (ip : Item.t * Profile.t) :
  ip ∈ (ps ≫= λ q, if decide (Item.profile_id i = Profile.id q)
                   then [(i, q)] else [])
  ↔ ip.1 = i ∧ ip.2 ∈ ps ∧ Item.profile_id i = Profile.id ip.2.
Proof.
  rewrite list_elem_of_bind. split.
  - intros (q & Hip & Hq). destruct (decide _) as [Heq | ?];
      [| by apply elem_of_nil in Hip].
    apply list_elem_of_singleton in Hip as ->. done.
  - destruct ip as [i' q]. simpl. intros (-> & Hq & Heq).
    exists q. split; [| done]. rewrite decide_True by done. by left.
Qed.

Lemma elem_of_join (d : database) (ip : Item.t * Profile.t) :
  ip ∈ join_profiles d
  ↔ ip.1 ∈ items d ∧ ip.2 ∈ profiles d
    ∧ Item.profile_id ip.1 = Profile.id ip.2.
Proof.
  unfold join_profiles. rewrite list_elem_of_bind. split.
  - intros (i & (-> & ? & ?)%elem_of_join_item & Hi). done.
  - intros (Hi & Hq & Heq). exists ip.1. split; [| done].
    apply elem_of_join_item. done.
Qed.

Lemma join_item_other (i : Item.t) (ps : list Profile.t) (pid k : Z) :
  pid ∉ Profile.id <$> ps →
  filter (λ ip : Item.t * Profile.t,
            (Profile.id ip.2, Item.kind ip.1) = (pid, k))
    (ps ≫= λ q, if decide (Item.profile_id i = Profile.id q)
                then [(i, q)] else []) = [].
Proof.
  intros Hnotin.
  destruct (filter _ _) as [| ip rest] eqn:Hfilter; [done |].
  assert (ip ∈ ip :: rest) as Hin by left.
  rewrite <-Hfilter in Hin.
  apply list_elem_of_filter in Hin as [[<- _]%join_key_eq Hip].
  apply elem_of_join_item in Hip as (_ & Hq & _).
  destruct Hnotin. apply list_elem_of_fmap. eauto.
Qed.

(** With distinct profile identifiers an item joins with at most one
    profile: within a group it counts once. *)
Lemma join_item_count (i : Item.t) (ps : list Profile.t) (pid k : Z) :
  NoDup (Profile.id <$> ps) → pid ∈ Profile.id <$> ps →
  length (filter (λ ip : Item.t * Profile.t,
                    (Profile.id ip.2, Item.kind ip.1) = (pid, k))
            (ps ≫= λ q, if decide (Item.profile_id i = Profile.id q)
                        then [(i, q)] else []))
  = length (filter (λ i, Item.profile_id i = pid ∧ Item.kind i = k) [i]).
Proof.
  induction ps as [| q ps IH]; [by intros _ ?%elem_of_nil |].
  rewrite fmap_cons. intros [Hnotin Hnodup]%NoDup_cons Hin.
  cbn [mbind list_bind]. rewrite filter_app, length_app.
  destruct (decide (pid = Profile.id q)) as [-> | Hne].
  - rewrite join_item_other by done.
    destruct (decide (Item.profile_id i = Profile.id q)) as [Heq | Hneq].
    + rewrite !filter_cons, !filter_nil. cbn [fst snd].
      destruct (decide (Item.kind i = k)) as [Hk | Hk].
      * rewrite decide_True by (by rewrite Hk).
        by rewrite decide_True by done.
      * rewrite decide_False by (by intros [= ?]).
        by rewrite decide_False by (by intros [_ ?]).
    + rewrite filter_nil, filter_cons, filter_nil.
      by rewrite decide_False by (by intros [? _]).
  - apply elem_of_cons in Hin as [? | Hin]; [done |].
    rewrite IH by done.
    destruct (decide (Item.profile_id i = Profile.id q)) as [Heq | Hneq];
      [| done].
    rewrite filter_cons, filter_nil. cbn [fst snd].
    by rewrite decide_False by (by intros [= ?]).
Qed.

(** The size of a group of the join is the number of items of that profile
    and kind. *)
Lemma join_group_size (d : database) (pid k : Z) :
  NoDup (Profile.id <$> profiles d) → pid ∈ Profile.id <$> profiles d →
  length (filter (λ ip : Item.t * Profile.t,
                    (Profile.id ip.2, Item.kind ip.1) = (pid, k))
            (join_profiles d))
  = length (filter (λ i, Item.profile_id i = pid ∧ Item.kind i = k)
              (items d)).
Proof.
  intros Hnodup Hin. unfold join_profiles.
  induction (items d) as [| i rest IH]; [done |].
  cbn [mbind list_bind]. rewrite filter_app, length_app, IH.
  rewrite (join_item_count i (profiles d) pid k Hnodup Hin).
  change (i :: rest) with ([i] ++ rest).
  by rewrite (filter_app _ [i] rest), length_app.
Qed.

Lemma strictly_sorted_pairs (rows : list analysis_row) :
  StronglySorted analysis_order rows →
  NoDup ((λ r, (analysis_profile_id r, analysis_kind r)) <$> rows) →
  StronglySorted
    (λ a b, analysis_profile_id a < analysis_profile_id b
            ∨ (analysis_profile_id a = analysis_profile_id b
               ∧ analysis_kind a < analysis_kind b)) rows.
Proof.
  induction 1 as [| x l Hsorted IH Hall]; rewrite ?fmap_cons;
    intros Hnodup; constructor.
  - apply IH. by apply NoDup_cons in Hnodup as [_ ?].
  - apply NoDup_cons in Hnodup as [Hnotin _].
    apply Forall_forall. intros y Hy.
    rewrite Forall_forall in Hall. specialize (Hall y Hy).
    assert ((analysis_profile_id x, analysis_kind x)
            ≠ (analysis_profile_id y, analysis_kind y)) as Hne.
    { intros Heq. apply Hnotin. rewrite Heq.
      apply list_elem_of_fmap. eauto. }
    unfold analysis_order in Hall.
    destruct (decide (analysis_kind x = analysis_kind y)) as [Hk | Hk];
      [| lia].
    destruct (decide (analysis_profile_id x = analysis_profile_id y))
      as [Hp | Hp]; [| lia].
    destruct Hne. by rewrite Hk, Hp.
Qed.

End analysis.

(** X4: when the statement succeeds and the profiles have distinct
    identifiers, getItemsByProfileAndKind returns its rows in strictly
    ascending order of (profile, kind); every row is for an existing profile
    and its count is the decimal text of the number of items of that profile
    and kind, which is at least one; every item whose profile exists is
    counted in a row, and an item whose profile is missing in none. *)
Theorem getItemsByProfileAndKind_counts (p : pool) :
  fault p PgComponent.analysis_text [] = None →
  NoDup (Profile.id <$> profiles (db p)) →
  ∃ rows,
    (PgComponent.getItemsByProfileAndKind p).2 = Returned rows
    ∧ StronglySorted
        (λ a b,
           PgComponent.analysis_profile_id a < PgComponent.analysis_profile_id b
           ∨ (PgComponent.analysis_profile_id a
              = PgComponent.analysis_profile_id b
              ∧ PgComponent.analysis_kind a < PgComponent.analysis_kind b))
        rows
    ∧ (∀ row, row ∈ rows →
         PgComponent.analysis_profile_id row ∈ Profile.id <$> profiles (db p)
         ∧ PgComponent.analysis_count row
           = int8_text
               (Z.of_nat
                  (length
                     (filter
                        (λ i, Item.profile_id i
                              = PgComponent.analysis_profile_id row
                              ∧ Item.kind i = PgComponent.analysis_kind row)
                        (items (db p)))))
         ∧ ∃ i, i ∈ items (db p)
                ∧ Item.profile_id i = PgComponent.analysis_profile_id row
                ∧ Item.kind i = PgComponent.analysis_kind row)
    ∧ (∀ i, i ∈ items (db p) →
         (Item.profile_id i ∈ Profile.id <$> profiles (db p)
          ↔ ∃ row, row ∈ rows
                   ∧ PgComponent.analysis_profile_id row = Item.profile_id i
                   ∧ PgComponent.analysis_kind row = Item.kind i)).
Proof.
  intros Hfault Hnodup.
  destruct (order_by_group_by
              (λ ip : Item.t * Profile.t, (Profile.id ip.2, Item.kind ip.1))
              (λ g : (Z * Z) * list (Item.t * Profile.t),
                 {| PgComponent.analysis_profile_id := g.1.1;
                    PgComponent.analysis_kind := g.1.2;
                    PgComponent.analysis_count := int8_text (count_star g.2) |})
              PgComponent.analysis_order (PgComponent.join_profiles (db p)))
    as (ks & Hperm & Hrows).
  assert (∀ key, key ∈ ks ↔
            ∃ i q, i ∈ items (db p) ∧ q ∈ profiles (db p)
                   ∧ Item.profile_id i = Profile.id q
                   ∧ key = (Profile.id q, Item.kind i)) as Hkeys.
  { intros key. rewrite Hperm, elem_of_remove_dups, list_elem_of_fmap. split.
    - intros ([i q] & -> & (? & ? & ?)%elem_of_join). by exists i, q.
    - intros (i & q & ? & ? & ? & ->). exists (i, q). split; [done |].
      by apply elem_of_join. }
  eexists. split.
  { unfold PgComponent.getItemsByProfileAndKind, pool_query,
      PgComponent.analysis_meaning.
    rewrite Hfault. cbn. rewrite Hrows. reflexivity. }
  split; [| split].
  - apply strictly_sorted_pairs.
    + rewrite <-Hrows. apply StronglySorted_merge_sort; apply _.
    + rewrite <-list_fmap_compose.
      rewrite (fmap_identity _ ks) by (by intros [? ?]).
      rewrite Hperm. apply NoDup_remove_dups.
  - intros row ([pid k] & -> & Hkey)%list_elem_of_fmap.
    cbn [PgComponent.analysis_profile_id PgComponent.analysis_kind
         PgComponent.analysis_count fst snd].
    apply Hkeys in Hkey as (i & q & Hi & Hq & Heq & [= -> ->]).
    assert (Profile.id q ∈ Profile.id <$> profiles (db p)) as Hin
      by (apply list_elem_of_fmap; eauto).
    split; [done |]. split; [| by exists i].
    unfold count_star. by rewrite join_group_size.
  - intros i Hi. split.
    + intros (q & Heq & Hq)%list_elem_of_fmap.
      eexists. split.
      * apply list_elem_of_fmap. exists (Profile.id q, Item.kind i).
        split; [reflexivity |]. apply Hkeys. by exists i, q.
      * done.
    + intros (row & ([pid k] & -> & Hkey)%list_elem_of_fmap & Hpid & Hk).
      cbn in Hpid, Hk. subst.
      apply Hkeys in Hkey as (i' & q & _ & Hq & _ & [= -> _]).
      apply list_elem_of_fmap. eauto.
Qed.

(** The sample wallet: profile 10 owns a connection and two credentials. *)
Lemma getItemsByProfileAndKind_counts_witness :
  ∃ rows,
    (PgComponent.getItemsByProfileAndKind Sample.healthy).2 = Returned rows
    ∧ ∀ row, row ∈ rows →
        PgComponent.analysis_profile_id row
        ∈ Profile.id <$> profiles Sample.content.
Proof.
  assert (NoDup (Profile.id <$> profiles (db Sample.healthy))) as Hnodup
    by (apply (bool_decide_unpack _); by vm_compute).
  destruct (getItemsByProfileAndKind_counts Sample.healthy eq_refl Hnodup)
    as (rows & Hrun & _ & Hrows & _).
  exists rows. split; [exact Hrun |].
  intros row Hrow. exact (proj1 (Hrows row Hrow)).
Defined.

(** ** The database routes *)

Section data_routes.

Import PgComponent.


Lemma getTableData_outcome (p : pool) (tableName : string) (limit : number)
  (rows : list raw_row) :
  (getTableData p tableName limit).2 = Returned rows →
  ∃ n all,
    limit = Int n ∧ 0 ≤ n
    ∧ relations (db p) (safeTableName tableName) = Some all
    ∧ rows = take (Z.to_nat n) all.
Proof.
  rewrite getTableData_run. cbn [snd].
  destruct (fault p _ _); [done |]. unfold table_data_meaning.
  destruct (relations (db p) _) as [all |]; [| done].
  destruct limit as [n |]; [| done]. cbn.
  destruct (n <? 0) eqn:Hneg; [done |].
  destruct (9223372036854775807 <? n); [done |]. intros [= <-].
  exists n, all. apply Z.ltb_ge in Hneg. done.
Qed.

End data_routes.




(** ** The description of the database, statement by statement *)

Section description.

Import PgComponent.

(** The loop sends the statements of the plan in order and stops at the
    first that fails; when none fails it has one detail per table. *)
Lemma sample_tables_plan (p : pool) (names : list string)
  (details : list table_detail) :
  ∃ evs r,
    sample_tables p names details = (evs, r)
    ∧ evs `prefix_of` Plan.sampling names
    ∧ match r with
      | Returned all =>
          evs = Plan.sampling names
          ∧ ∃ new,
              all = details ++ new
              ∧ Forall2
                  (λ n d,
                     detail_name d = n
                     ∧ detail_schema d = columns (db p) n
                     ∧ rowCount d = Z.of_nat (length (sampleData d))
                     ∧ ∃ rows,
                         relations (db p) (safeTableName n) = Some rows
                         ∧ sampleData d = take 5 rows)
                  names new
      | Thrown e =>
          ∃ n, n ∈ names
               ∧ (fault p schema_text [SqlText n] = Some e
                  ∨ (getTableData p n (Int 5)).2 = Thrown e)
      end.
Proof.
  revert details. induction names as [| n names IH]; intros details.
  { exists [], (Returned details). split; [done |]. split; [done |].
    split; [done |]. exists []. split; [by rewrite app_nil_r | constructor]. }
  cbn [sample_tables]. rewrite getTableSchema_run.
  change (Plan.sampling (n :: names))
    with (Query schema_text [SqlText n]
          :: Query (table_data_text (safeTableName n)) [SqlNumber (Int 5)]
          :: Plan.sampling names).
  destruct (fault p schema_text [SqlText n]) as [e |] eqn:Hschema.
  { exists [Query schema_text [SqlText n]], (Thrown e).
    split; [done |]. split.
    - by apply prefix_cons, prefix_nil.
    - exists n. split; [left | by left]. }
  pose proof (getTableData_outcome p n (Int 5)) as Hdata.
  pose proof (getTableData_events p n (Int 5)) as Hevents.
  destruct (getTableData p n (Int 5)) as [evs_data [data | e]] eqn:Hrun;
    cbn [fst snd] in Hdata, Hevents; subst evs_data.
  2:{ exists [Query schema_text [SqlText n];
              Query (table_data_text (safeTableName n)) [SqlNumber (Int 5)]],
        (Thrown e).
      split; [done |]. split.
      - by apply prefix_cons, prefix_cons, prefix_nil.
      - exists n. split; [left | right; by rewrite Hrun]. }
  destruct (Hdata data eq_refl) as (five & rows & [= <-] & _ & Hrows & Htake).
  destruct (IH (details
                ++ [ {| detail_name := n;
                        detail_schema := columns (db p) n;
                        sampleData := data;
                        rowCount := Z.of_nat (length data) |} ]))
    as (evs & r & Hloop & Hprefix & Hresult).
  exists (Query schema_text [SqlText n]
          :: Query (table_data_text (safeTableName n)) [SqlNumber (Int 5)]
          :: evs), r.
  split; [cbn; by rewrite Hloop |].
  split; [by apply prefix_cons, prefix_cons |].
  destruct r as [all | e].
  - destruct Hresult as (-> & new & -> & Hnew).
    split; [done |]. eexists (_ :: new).
    split; [by rewrite <-app_assoc |].
    constructor; [| done]. cbn. repeat split. by exists rows.
  - destruct Hresult as (n' & Hn' & Hfail).
    exists n'. split; [by right | done].
Qed.

(** The three ways in which getAllItemsFromPublicSchema ends. *)
Lemma public_schema_run (env : gmap string string) (p : pool) :
  match fault p tables_text [] with
  | Some e =>
      getAllItemsFromPublicSchema env p
      = ([Query tables_text []],
         Returned
           (Placeholders
              [ ErrorEntry "Error fetching database info" (message e);
                SampleItem 1 "Sample Item 1" "This is a sample item" ]))
  | None =>
      match public_tables (db p) with
      | [] =>
          getAllItemsFromPublicSchema env p
          = ([Query tables_text []],
             Returned
               (Placeholders
                  [ SampleItem 1 "Sample Item 1" "This is a sample item";
                    SampleItem 2 "Sample Item 2" "Another sample item" ]))
      | _ :: _ =>
          ∀ evs r,
            sample_tables p (take 3 (public_tables (db p))) [] = (evs, r) →
            getAllItemsFromPublicSchema env p
            = (Query tables_text [] :: evs,
               Returned
                 match r with
                 | Returned details =>
                     Description
                       {| info_database := dbConfig_database env;
                          info_tables := public_tables (db p);
                          tableDetails := details |}
                 | Thrown e =>
                     Placeholders
                       [ ErrorEntry "Error fetching database info"
                           (message e);
                         SampleItem 1 "Sample Item 1" "This is a sample item" ]
                 end)
      end
  end.
Proof.
  unfold getAllItemsFromPublicSchema. rewrite getTables_run.
  destruct (fault p tables_text []) as [e |]; [done |].
  destruct (public_tables (db p)) as [| n names]; [done |].
  intros evs r Hloop. cbn -[take sample_tables]. rewrite Hloop.
  rewrite decide_False by done.
  destruct r as [details | e]; cbn -[take]; by rewrite app_nil_r.
Qed.

(** One round of the loop. *)
Lemma sample_tables_cons (p : pool) (n : string) (names : list string)
  (details : list table_detail) :
  sample_tables p (n :: names) details
  = match Plan.failure (getTableSchema p n) with
    | Some e => ([Query schema_text [SqlText n]], Thrown e)
    | None =>
        match (getTableData p n (Int 5)).2 with
        | Thrown e =>
            ([ Query schema_text [SqlText n];
               Query (table_data_text (safeTableName n)) [SqlNumber (Int 5)] ],
             Thrown e)
        | Returned data =>
            let rest :=
              sample_tables p names
                (details
                 ++ [ {| detail_name := n;
                         detail_schema := columns (db p) n;
                         sampleData := data;
                         rowCount := Z.of_nat (length data) |} ]) in
            (Query schema_text [SqlText n]
             :: Query (table_data_text (safeTableName n)) [SqlNumber (Int 5)]
             :: rest.1,
             rest.2)
        end
    end.
Proof.
  cbn [sample_tables]. unfold Plan.failure. rewrite getTableSchema_run.
  destruct (fault p schema_text [SqlText n]) as [e |]; [done |].
  pose proof (getTableData_events p n (Int 5)) as Hevents.
  destruct (getTableData p n (Int 5)) as [evs_data [data | e]];
    cbn [fst snd] in Hevents |- *; subst evs_data; [| done].
  cbn. by destruct (sample_tables p names _).
Qed.

Lemma outcomes_cons (p : pool) (n : string) (names : list string) :
  Plan.outcomes p (n :: names)
  = (Query schema_text [SqlText n], Plan.failure (getTableSchema p n))
    :: (Query (table_data_text (safeTableName n)) [SqlNumber (Int 5)],
        Plan.failure (getTableData p n (Int 5)))
    :: Plan.outcomes p names.
Proof. reflexivity. Qed.

(** The statements of the outcomes are those of the plan. *)
Lemma outcomes_statements (p : pool) (names : list string) :
  (Plan.outcomes p names).*1 = Plan.sampling names.
Proof.
  induction names as [| n names IH]; [done |].
  rewrite outcomes_cons, !fmap_cons, IH. reflexivity.
Qed.

(** In a list of outcomes either nothing fails, or there is a first
    failure. *)
Lemma first_failure {A} (l : list (A * option error)) :
  (∀ o, o ∈ l → o.2 = None)
  ∨ ∃ i a e,
      l !! i = Some (a, Some e)
      ∧ ∀ j o, (j < i)%nat → l !! j = Some o → o.2 = None.
Proof.
  induction l as [| [a [e |]] l IH].
  - left. by intros o ?%elem_of_nil.
  - right. exists 0%nat, a, e. split; [done |]. intros j o ?. lia.
  - destruct IH as [Hall | (i & a' & e & Hi & Hbefore)].
    + left. intros o [-> | Ho]%elem_of_cons; [done | by apply Hall].
    + right. exists (S i), a', e. split; [done |].
      intros [| j] o Hj; [by intros [= <-] |].
      cbn. apply Hbefore. lia.
Qed.

(** The loop stops at the first statement that fails, with its failure. *)
Lemma sample_tables_stops (p : pool) (names : list string)
  (details : list table_detail) (i : nat) (ev : event) (e : error) :
  Plan.outcomes p names !! i = Some (ev, Some e) →
  (∀ j o, (j < i)%nat → Plan.outcomes p names !! j = Some o → o.2 = None) →
  sample_tables p names details
  = (take (S i) (Plan.sampling names), Thrown e).
Proof.
  revert details i. induction names as [| n names IH]; intros details i;
    [done |].
  rewrite outcomes_cons, sample_tables_cons.
  change (Plan.sampling (n :: names))
    with (Query schema_text [SqlText n]
          :: Query (table_data_text (safeTableName n)) [SqlNumber (Int 5)]
          :: Plan.sampling names).
  destruct i as [| [| i]]; intros Hi Hbefore.
  - injection Hi as _ ->. done.
  - specialize (Hbefore 0%nat _ ltac:(lia) eq_refl) as Hschema.
    cbn [snd] in Hschema. rewrite Hschema.
    injection Hi as _ Hdata. unfold Plan.failure in Hdata.
    destruct (getTableData p n (Int 5)).2 as [data | e']; [done |].
    by injection Hdata as ->.
  - specialize (Hbefore 0%nat _ ltac:(lia) eq_refl) as Hschema.
    specialize (Hbefore 1%nat _ ltac:(lia) eq_refl) as Hdata.
    cbn [snd] in Hschema, Hdata. rewrite Hschema.
    unfold Plan.failure in Hdata.
    destruct (getTableData p n (Int 5)).2 as [data | e']; [| done].
    cbn zeta. rewrite (IH _ i Hi); [done |].
    intros j o Hj. apply (Hbefore (S (S j))). lia.
Qed.

(** When no statement fails the loop sends them all and returns. *)
Lemma sample_tables_completes (p : pool) (names : list string)
  (details : list table_detail) :
  (∀ o, o ∈ Plan.outcomes p names → o.2 = None) →
  ∃ all,
    sample_tables p names details = (Plan.sampling names, Returned all).
Proof.
  revert details. induction names as [| n names IH]; intros details Hall.
  { by exists details. }
  rewrite outcomes_cons in Hall. rewrite sample_tables_cons.
  pose proof (Hall _ ltac:(left)) as Hschema.
  pose proof (Hall _ ltac:(right; left)) as Hdata.
  cbn [snd] in Hschema, Hdata. rewrite Hschema.
  unfold Plan.failure in Hdata.
  destruct (getTableData p n (Int 5)).2 as [data | e']; [| done].
  cbn zeta.
  edestruct IH as [all ->].
  { intros o Ho. apply Hall. by do 2 right. }
  by exists all.
Qed.

(** How the failures of the statements decide the end of the loop. *)
Lemma sample_tables_failures (p : pool) (names : list string)
  (details : list table_detail) (evs : list event)
  (r : outcome (list table_detail)) :
  sample_tables p names details = (evs, r) →
  (∀ i ev e,
     Plan.outcomes p names !! i = Some (ev, Some e) →
     (∀ j o, (j < i)%nat → Plan.outcomes p names !! j = Some o →
             o.2 = None) →
     evs = take (S i) (Plan.sampling names) ∧ r = Thrown e)
  ∧ ((∀ o, o ∈ Plan.outcomes p names → o.2 = None) →
     evs = Plan.sampling names ∧ ∃ all, r = Returned all)
  ∧ ((∃ all, r = Returned all) →
     ∀ o, o ∈ Plan.outcomes p names → o.2 = None).
Proof.
  intros Hrun. split; [| split].
  - intros i ev e Hi Hbefore.
    rewrite (sample_tables_stops p names details i ev e Hi Hbefore) in Hrun.
    by injection Hrun as <- <-.
  - intros Hall.
    destruct (sample_tables_completes p names details Hall) as [all Hall'].
    rewrite Hall' in Hrun. injection Hrun as <- <-. eauto.
  - intros [all ->].
    destruct (first_failure (Plan.outcomes p names))
      as [Hall | (i & ev & e & Hi & Hbefore)]; [done |].
    by rewrite (sample_tables_stops p names details i ev e Hi Hbefore) in Hrun.
Qed.

End description.


(** C9: getAllItemsFromPublicSchema always returns and never throws.  After
    the statement that lists the tables it sends at most six statements, each
    one the schema or the sample statement (with limit 5) of one of the first
    three tables.  The description it returns has at most three table
    details, those of the first three tables, each with at most five sample
    rows.  When the table list is empty it returns the two sample
    placeholders.  When a statement fails, be it the listing or the schema or
    the sample statement of one of the first three tables, it catches the
    failure and returns the two-entry list made of the error entry, with the
    message of the first failure, and one sample placeholder; it returns a
    description exactly when the listing succeeds, lists a table, and none of
    these statements fails.  Every other operation of the query component (on
    PostgreSQL and on MySQL) hands the failure of its statement to its
    caller. *)
Theorem getAllItemsFromPublicSchema_degrades (env : gmap string string)
  (p : pool) :
  (∃ report evs,
     PgComponent.getAllItemsFromPublicSchema env p
     = (Query PgComponent.tables_text [] :: evs, Returned report)
     ∧ (length evs ≤ 6)%nat
     ∧ Forall
         (λ ev, ∃ n, n ∈ take 3 (public_tables (db p))
            ∧ (ev = Query PgComponent.schema_text [SqlText n]
               ∨ ev = Query
                        (PgComponent.table_data_text
                           (PgComponent.safeTableName n))
                        [SqlNumber (Int 5)])) evs
     ∧ match report with
       | PgComponent.Description info =>
           (length (PgComponent.tableDetails info) ≤ 3)%nat
           ∧ PgComponent.detail_name <$> PgComponent.tableDetails info
             = take 3 (public_tables (db p))
           ∧ Forall (λ d, (length (PgComponent.sampleData d) ≤ 5)%nat)
               (PgComponent.tableDetails info)
       | PgComponent.Placeholders entries =>
           (entries
            = [ PgComponent.SampleItem 1 "Sample Item 1"
                  "This is a sample item";
                PgComponent.SampleItem 2 "Sample Item 2"
                  "Another sample item" ]
            ∧ public_tables (db p) = [])
           ∨ (∃ e,
                entries
                = [ PgComponent.ErrorEntry "Error fetching database info"
                      (message e);
                    PgComponent.SampleItem 1 "Sample Item 1"
                      "This is a sample item" ])
       end
     ∧ (fault p PgComponent.tables_text [] = None →
        public_tables (db p) = [] →
        report
        = PgComponent.Placeholders
            [ PgComponent.SampleItem 1 "Sample Item 1" "This is a sample item";
              PgComponent.SampleItem 2 "Sample Item 2" "Another sample item" ])
     ∧ (∀ e, fault p PgComponent.tables_text [] = Some e →
             report
             = PgComponent.Placeholders
                 [ PgComponent.ErrorEntry "Error fetching database info"
                     (message e);
                   PgComponent.SampleItem 1 "Sample Item 1"
                     "This is a sample item" ])
     ∧ (fault p PgComponent.tables_text [] = None →
        ∀ i ev e,
          Plan.outcomes p (take 3 (public_tables (db p))) !! i
          = Some (ev, Some e) →
          (∀ j o, (j < i)%nat →
                  Plan.outcomes p (take 3 (public_tables (db p))) !! j
                  = Some o →
                  o.2 = None) →
          report
          = PgComponent.Placeholders
              [ PgComponent.ErrorEntry "Error fetching database info"
                  (message e);
                PgComponent.SampleItem 1 "Sample Item 1"
                  "This is a sample item" ])
     ∧ ((∃ info, report = PgComponent.Description info)
        ↔ fault p PgComponent.tables_text [] = None
          ∧ public_tables (db p) ≠ []
          ∧ ∀ o, o ∈ Plan.outcomes p (take 3 (public_tables (db p))) →
                 o.2 = None))
  ∧ (∀ e,
       (fault p PgComponent.items_text [] = Some e →
        (PgComponent.getAllItems p).2 = Thrown e)
       ∧ (fault p PgComponent.categories_text [] = Some e →
          (PgComponent.countItemsByCategory p).2 = Thrown e)
       ∧ (fault p PgComponent.analysis_text [] = Some e →
          (PgComponent.getItemsByProfileAndKind p).2 = Thrown e)
       ∧ (∀ id, fault p PgComponent.item_by_id_text [SqlNumber (Int id)]
                = Some e →
                (PgComponent.getItemById p id).2 = Thrown e)
       ∧ (fault p PgComponent.profiles_text [] = Some e →
          (PgComponent.getAllProfiles p).2 = Thrown e)
       ∧ (fault p PgComponent.config_text [] = Some e →
          (PgComponent.getConfiguration p).2 = Thrown e)
       ∧ (∀ tableName limit,
            fault p
              (PgComponent.table_data_text
                 (PgComponent.safeTableName tableName))
              [SqlNumber limit] = Some e →
            (PgComponent.getTableData p tableName limit).2 = Thrown e)
       ∧ (fault p PgComponent.tables_text [] = Some e →
          (PgComponent.getTables p).2 = Thrown e)
       ∧ (∀ tableName,
            fault p PgComponent.schema_text [SqlText tableName] = Some e →
            (PgComponent.getTableSchema p tableName).2 = Thrown e)
       ∧ (fault p PgComponent.kinds_text [] = Some e →
          (PgComponent.countItemsByKind p).2 = Thrown e)
       ∧ (fault p MysqlComponent.items_text [] = Some e →
          (MysqlComponent.getAllItems p).2 = Thrown e)
       ∧ (∀ id, fault p MysqlComponent.item_by_id_text [SqlNumber (Int id)]
                = Some e →
                (MysqlComponent.getItemById p id).2 = Thrown e)).
Proof.
  split.
  - pose proof (public_schema_run env p) as Hrun.
    destruct (fault p PgComponent.tables_text []) as [e |] eqn:Hfault.
    { eexists _, []. split; [exact Hrun |].
      split; [simpl; lia |]. split; [constructor |].
      split; [right; by exists e |]. split; [done |].
      split; [by intros ? [= <-] |]. split; [done |].
      split; [by intros [? ?] | by intros [? _]]. }
    destruct (public_tables (db p)) as [| n names] eqn:Htables.
    { eexists _, []. split; [exact Hrun |].
      split; [simpl; lia |]. split; [constructor |].
      split; [by left |]. split; [done |]. split; [done |].
      split; [by intros _ i ev e ? |].
      split; [by intros [? ?] | by intros (_ & ? & _)]. }
    destruct (sample_tables_run p (take 3 (n :: names)) [])
      as (evs & r & Hloop & Hlength & Hevents & Hresult).
    destruct (sample_tables_failures p _ _ _ _ Hloop)
      as (Hstops & Hcompletes & Hreturned).
    assert ((length (take 3 (n :: names)) ≤ 3)%nat) as Hthree
      by (rewrite length_take; lia).
    eexists _, evs. split; [exact (Hrun evs r Hloop) |].
    split; [lia |]. split; [exact Hevents |].
    destruct r as [details | e].
    + destruct Hresult as (new & -> & Hnames & Hnew).
      split.
      { split; [| split; [exact Hnames | exact Hnew]].
        rewrite <-Hnames, length_fmap in Hthree. exact Hthree. }
      split; [done |]. split; [done |]. split.
      { intros _ i ev e Hi Hbefore. by destruct (Hstops i ev e Hi Hbefore). }
      split; [| by eexists].
      intros _. split; [done |]. split; [done |]. apply Hreturned. by eexists.
    + split; [right; by exists e |]. split; [done |]. split; [done |]. split.
      { intros _ i ev e' Hi Hbefore.
        destruct (Hstops i ev e' Hi Hbefore) as [_ [= ->]]. done. }
      split; [by intros [? ?] |].
      intros (_ & _ & Hall). by destruct (Hcompletes Hall) as (_ & ? & ?).
  - intros e.
    repeat split; intros;
      rewrite ?getTableData_run, ?getTables_run, ?getTableSchema_run;
      unfold PgComponent.getAllItems, PgComponent.countItemsByCategory,
        PgComponent.getItemsByProfileAndKind, PgComponent.getItemById,
        PgComponent.getAllProfiles, PgComponent.getConfiguration,
        PgComponent.countItemsByKind, MysqlComponent.getAllItems,
        MysqlComponent.getItemById;
      rewrite ?single_statement_run; cbn [snd];
      match goal with H : fault _ _ _ = Some _ |- _ => by rewrite H end.
Qed.

(** The sample database lists no table; behind the unreachable server the
    listing fails and every other operation throws; on the server whose
    sample statements fail, the schema statement of "profiles" succeeds,
    its sample statement fails, and the result is the error entry with the
    message of that failure. *)
Lemma getAllItemsFromPublicSchema_degrades_witness :
  (PgComponent.getAllItemsFromPublicSchema ∅ Sample.healthy).2
  = Returned
      (PgComponent.Placeholders
         [ PgComponent.SampleItem 1 "Sample Item 1" "This is a sample item";
           PgComponent.SampleItem 2 "Sample Item 2" "Another sample item" ])
  ∧ (PgComponent.getAllItems Sample.unreachable).2
    = Thrown (Error "connect ECONNREFUSED 127.0.0.1:5432" EmptyString)
  ∧ (PgComponent.getAllItemsFromPublicSchema ∅ Sample2.failing_sample).2
    = Returned
        (PgComponent.Placeholders
           [ PgComponent.ErrorEntry "Error fetching database info"
               "canceling statement due to statement timeout";
             PgComponent.SampleItem 1 "Sample Item 1"
               "This is a sample item" ]).
Proof.
  split; [| split].
  - destruct (getAllItemsFromPublicSchema_degrades ∅ Sample.healthy)
      as [(report & evs & Hrun & _ & _ & _ & Hempty & _) _].
    rewrite Hrun. cbn [snd]. f_equal. exact (Hempty eq_refl eq_refl).
  - destruct (getAllItemsFromPublicSchema_degrades ∅ Sample.unreachable)
      as [_ Hothers].
    exact (proj1 (Hothers (Error "connect ECONNREFUSED 127.0.0.1:5432" EmptyString))
             eq_refl).
  - destruct (getAllItemsFromPublicSchema_degrades ∅ Sample2.failing_sample)
      as [(report & evs & Hrun & _ & _ & _ & _ & _ & Hstops & _) _].
    rewrite Hrun. cbn [snd]. f_equal.
    apply (Hstops eq_refl 1%nat
             (Query (PgComponent.table_data_text "profiles")
                [SqlNumber (Int 5)])
             (Error "canceling statement due to statement timeout"
                EmptyString)); [reflexivity |].
    intros [| j] o Hj; [by intros [= <-] | lia].
Defined.

(** X7: getAllItemsFromPublicSchema sends its statements in a fixed order:
    the listing of the tables, then for each of the first three tables its
    schema statement followed by its sample statement; it stops at the first
    statement that fails.  When the listing fails it sends nothing more.
    When statement number [i] of the plan is the first that fails, the
    statements sent after the listing are exactly the first [i + 1] of the
    plan, the failing one the last, and the result is the error entry with
    the message of that failure, not a description.  When the listing names
    a table and no statement fails, the whole plan is sent and the result is
    a description.  A description lists every table and has, for each of
    the first three, the columns of the table and the first five rows of the
    relation of that (stripped) name in schema postgres, with their number
    as rowCount. *)
Theorem getAllItemsFromPublicSchema_plan (env : gmap string string)
  (p : pool) :
  ∃ evs report,
    PgComponent.getAllItemsFromPublicSchema env p
    = (Query PgComponent.tables_text [] :: evs, Returned report)
    ∧ evs `prefix_of` Plan.sampling (take 3 (public_tables (db p)))
    ∧ (∀ e, fault p PgComponent.tables_text [] = Some e → evs = [])
    ∧ (fault p PgComponent.tables_text [] = None →
       ∀ i ev e,
         Plan.outcomes p (take 3 (public_tables (db p))) !! i
         = Some (ev, Some e) →
         (∀ j o, (j < i)%nat →
                 Plan.outcomes p (take 3 (public_tables (db p))) !! j
                 = Some o →
                 o.2 = None) →
         evs = take (S i) (Plan.sampling (take 3 (public_tables (db p))))
         ∧ last evs = Some ev
         ∧ report
           = PgComponent.Placeholders
               [ PgComponent.ErrorEntry "Error fetching database info"
                   (message e);
                 PgComponent.SampleItem 1 "Sample Item 1"
                   "This is a sample item" ])
    ∧ (fault p PgComponent.tables_text [] = None →
       public_tables (db p) ≠ [] →
       (∀ o, o ∈ Plan.outcomes p (take 3 (public_tables (db p))) →
             o.2 = None) →
       evs = Plan.sampling (take 3 (public_tables (db p)))
       ∧ ∃ info, report = PgComponent.Description info)
    ∧ ∀ info,
        report = PgComponent.Description info →
        evs = Plan.sampling (take 3 (public_tables (db p)))
        ∧ (∀ o, o ∈ Plan.outcomes p (take 3 (public_tables (db p))) →
                o.2 = None)
        ∧ PgComponent.info_database info
          = or_else (env !! "POSTGRESQL_DB") "askar-wallet"
        ∧ PgComponent.info_tables info = public_tables (db p)
        ∧ public_tables (db p) ≠ []
        ∧ Forall2
            (λ n d,
               PgComponent.detail_name d = n
               ∧ PgComponent.detail_schema d = columns (db p) n
               ∧ PgComponent.rowCount d
                 = Z.of_nat (length (PgComponent.sampleData d))
               ∧ ∃ rows,
                   relations (db p) (PgComponent.safeTableName n) = Some rows
                   ∧ PgComponent.sampleData d = take 5 rows)
            (take 3 (public_tables (db p)))
            (PgComponent.tableDetails info).
Proof.
  pose proof (public_schema_run env p) as Hrun.
  destruct (fault p PgComponent.tables_text []) as [e |].
  { eexists [], _. split; [exact Hrun |]. split; [apply prefix_nil |].
    repeat split; done. }
  destruct (public_tables (db p)) as [| n names] eqn:Htables.
  { eexists [], _. split; [exact Hrun |]. split; [apply prefix_nil |].
    split; [done |]. split; [by intros _ i ev e ? |]. split; done. }
  destruct (sample_tables_plan p (take 3 (n :: names)) [])
    as (evs & r & Hloop & Hprefix & Hresult).
  destruct (sample_tables_failures p _ _ _ _ Hloop)
    as (Hstops & Hcompletes & Hreturned).
  exists evs. eexists. split; [exact (Hrun evs r Hloop) |].
  split; [exact Hprefix |]. split; [done |]. split; [| split].
  - intros _ i ev e Hi Hbefore.
    destruct (Hstops i ev e Hi Hbefore) as [-> ->].
    split; [done |]. split; [| done].
    assert (Plan.sampling (take 3 (n :: names)) !! i = Some ev) as Hev.
    { rewrite <-(outcomes_statements p), list_lookup_fmap, Hi. done. }
    apply lookup_lt_Some in Hev as Hlt.
    rewrite last_lookup, length_take, Nat.min_l by lia.
    rewrite lookup_take_lt by (simpl; lia). exact Hev.
  - intros _ _ Hall. destruct (Hcompletes Hall) as (-> & all & ->).
    split; [done | by eexists].
  - destruct r as [details | e]; [| done].
    intros info [= <-]. destruct Hresult as (-> & new & -> & Hnew).
    split; [done |]. split; [apply Hreturned; by eexists |].
    repeat split; done.
Qed.

(** A server that lists the relation "profiles": the whole plan is sent.
    When its sample statements fail, the plan stops at the second
    statement. *)
Lemma getAllItemsFromPublicSchema_plan_witness :
  (∃ evs info,
     PgComponent.getAllItemsFromPublicSchema ∅ Sample2.described
     = (Query PgComponent.tables_text [] :: evs,
        Returned (PgComponent.Description info))
     ∧ evs = Plan.sampling ["profiles"])
  ∧ (PgComponent.getAllItemsFromPublicSchema ∅ Sample2.failing_sample).1
    = [ Query PgComponent.tables_text [];
        Query PgComponent.schema_text [SqlText "profiles"];
        Query (PgComponent.table_data_text "profiles") [SqlNumber (Int 5)] ].
Proof.
  split.
  - destruct (getAllItemsFromPublicSchema_plan ∅ Sample2.described)
      as (evs & report & Hrun & _ & _ & _ & _ & Hdescription).
    assert (∃ info, report = PgComponent.Description info) as [info ->].
    { pose proof Hrun as Hvalue. vm_compute in Hvalue.
      injection Hvalue as _ <-. by eexists. }
    exists evs, info. split; [exact Hrun |].
    exact (proj1 (Hdescription info eq_refl)).
  - destruct (getAllItemsFromPublicSchema_plan ∅ Sample2.failing_sample)
      as (evs & report & Hrun & _ & _ & Hstops & _).
    rewrite Hrun. cbn [fst]. f_equal.
    refine (proj1 (Hstops eq_refl 1%nat
                     (Query (PgComponent.table_data_text "profiles")
                        [SqlNumber (Int 5)])
                     (Error "canceling statement due to statement timeout"
                        EmptyString) eq_refl _)).
    intros [| j] o Hj; [by intros [= <-] | lia].
Defined.

(** X8: the tables are listed from schema public but sampled from schema
    postgres.  When the listing succeeds and one of the first three tables
    has no relation of its stripped name in schema postgres, there is no
    description: the result is the two-entry list that starts with the error
    entry. *)
Theorem getAllItemsFromPublicSchema_schema_mismatch
  (env : gmap string string) (p : pool) (n : string) :
  fault p PgComponent.tables_text [] = None →
  n ∈ take 3 (public_tables (db p)) →
  relations (db p) (PgComponent.safeTableName n) = None →
  ∃ details,
    (PgComponent.getAllItemsFromPublicSchema env p).2
    = Returned
        (PgComponent.Placeholders
           [ PgComponent.ErrorEntry "Error fetching database info" details;
             PgComponent.SampleItem 1 "Sample Item 1" "This is a sample item" ]).
Proof.
  intros Hfault Hn Hmissing.
  pose proof (public_schema_run env p) as Hrun. rewrite Hfault in Hrun.
  destruct (public_tables (db p)) as [| n0 names] eqn:Htables;
    [by apply elem_of_nil in Hn |].
  destruct (sample_tables_plan p (take 3 (n0 :: names)) [])
    as (evs & r & Hloop & _ & Hresult).
  rewrite (Hrun evs r Hloop). cbn [snd].
  destruct r as [details | e]; [| by eexists].
  destruct Hresult as (_ & new & _ & Hnew). exfalso.
  apply list_elem_of_lookup in Hn as [k Hk].
  destruct (Forall2_lookup_l _ _ _ _ _ Hnew Hk)
    as (d & _ & _ & _ & _ & rows & Hrows & _).
  by rewrite Hmissing in Hrows.
Qed.

(** A server that lists the table "profiles" in schema public while schema
    postgres has no relation of that name. *)
Lemma getAllItemsFromPublicSchema_schema_mismatch_witness :
  ∃ details,
    (PgComponent.getAllItemsFromPublicSchema ∅ Sample2.mismatched).2
    = Returned
        (PgComponent.Placeholders
           [ PgComponent.ErrorEntry "Error fetching database info" details;
             PgComponent.SampleItem 1 "Sample Item 1" "This is a sample item" ]).
Proof.
  apply (getAllItemsFromPublicSchema_schema_mismatch ∅ Sample2.mismatched
           "wallet_keys"); [reflexivity | | reflexivity].
  cbn. left.
Defined.

(** ** The e-mail routes *)

(** X9: each e-mail route calls its collaborator exactly when every field
    passes its validator (contactEmail an e-mail address, reservationId and,
    for the status route, state not empty), and then once, before anything is
    sent.  When the collaborator returns, the route sends its result with
    status 200; when it throws, nothing is sent and the error goes to the
    next handler.  When a field fails, the route answers 422 with one error
    entry per failing field, in the order of the validators, and calls
    nothing. *)
Theorem email_routes_validate_then_send
  (isEmail isEmpty : option json → bool)
  (sendConfirmationEmail sendStatusEmail : gmap string json → outcome json)
  (req_body : gmap string json) :
  Router.path <$> Router.confirmation_errors isEmail isEmpty req_body
  = (if isEmail (req_body !! "contactEmail") then [] else ["contactEmail"])
    ++ (if isEmpty (req_body !! "reservationId") then ["reservationId"]
        else [])
  ∧ (Router.reservationConfirmation isEmail isEmpty sendConfirmationEmail
       req_body).1
    = (if isEmail (req_body !! "contactEmail")
          && negb (isEmpty (req_body !! "reservationId"))
       then
         EmailCall req_body
         :: match sendConfirmationEmail req_body with
            | Returned result => [Respond 200 result]
            | Thrown e => [Next e]
            end
       else
         [Respond 422
            (JObj [("errors",
                    JArr (Router.json_of_validation_error
                          <$> Router.confirmation_errors isEmail isEmpty
                                req_body))])])
  ∧ Router.path <$> DataRoutes.status_errors isEmail isEmpty req_body
    = (if isEmail (req_body !! "contactEmail") then [] else ["contactEmail"])
      ++ (if isEmpty (req_body !! "reservationId") then ["reservationId"]
          else [])
      ++ (if isEmpty (req_body !! "state") then ["state"] else [])
  ∧ (DataRoutes.reservationStatus isEmail isEmpty sendStatusEmail req_body).1
    = (if isEmail (req_body !! "contactEmail")
          && negb (isEmpty (req_body !! "reservationId"))
          && negb (isEmpty (req_body !! "state"))
       then
         EmailCall req_body
         :: match sendStatusEmail req_body with
            | Returned result => [Respond 200 result]
            | Thrown e => [Next e]
            end
       else
         [Respond 422
            (JObj [("errors",
                    JArr (Router.json_of_validation_error
                          <$> DataRoutes.status_errors isEmail isEmpty
                                req_body))])]).
Proof.
  unfold Router.reservationConfirmation, DataRoutes.reservationStatus,
    Router.confirmation_errors, DataRoutes.status_errors, Router.body_check.
  destruct (isEmail (req_body !! "contactEmail")),
    (isEmpty (req_body !! "reservationId")),
    (isEmpty (req_body !! "state"));
    cbn [negb andb app fmap list_fmap Router.path];
    (split; [reflexivity |]); (split; [| split; [reflexivity |]]);
    first [ reflexivity
          | by destruct (sendConfirmationEmail req_body)
          | by destruct (sendStatusEmail req_body) ].
Qed.

(** ** The innkeeper routes *)

(** X10: the login route calls the innkeeper login only for a token whose
    realm roles include the configured role; any other token gets status 403
    with an empty body and no call.  With the role, the result of the login
    is sent with status 200, or its failure handed to the next handler. *)
Theorem innkeeperLogin_role_gate (roleName : string)
  (login : outcome (list (string * json))) (req_claims : Innkeeper.claims) :
  (Innkeeper.LoginCall ∈ Innkeeper.innkeeperLogin roleName login req_claims
   ↔ ∃ granted,
       Innkeeper.realm_access req_claims
       = Some (Innkeeper.Realm (Some granted))
       ∧ roleName ∈ granted)
  ∧ (Innkeeper.LoginCall ∉ Innkeeper.innkeeperLogin roleName login req_claims →
     Innkeeper.innkeeperLogin roleName login req_claims
     = [Innkeeper.Reply 403 None])
  ∧ (Innkeeper.LoginCall ∈ Innkeeper.innkeeperLogin roleName login req_claims →
     Innkeeper.innkeeperLogin roleName login req_claims
     = Innkeeper.LoginCall
       :: match login with
          | Returned result => [Innkeeper.Reply 200 (Some (JObj result))]
          | Thrown e => [Innkeeper.Forward e]
          end).
Proof.
  assert (Innkeeper.has_role roleName req_claims = true
          ↔ ∃ granted,
              Innkeeper.realm_access req_claims
              = Some (Innkeeper.Realm (Some granted))
              ∧ roleName ∈ granted) as Hrole.
  { unfold Innkeeper.has_role.
    destruct (Innkeeper.realm_access req_claims) as [[[granted |]] |];
      cbn [Innkeeper.roles].
    - rewrite bool_decide_eq_true. split; [by exists granted |].
      by intros (? & [= <-] & ?).
    - split; [done | by intros (? & [=] & _)].
    - split; [done | by intros (? & [=] & _)]. }
  unfold Innkeeper.innkeeperLogin.
  destruct (Innkeeper.has_role roleName req_claims).
  - split; [| split; [| done]].
    + split; [intros _; by apply Hrole | intros _; left].
    + intros []. left.
  - split; [| split; [done |]].
    + split; [| by intros ?%Hrole].
      intros [Heq | Hin]%elem_of_cons;
        [discriminate | by apply elem_of_nil in Hin].
    + intros [Heq | Hin]%elem_of_cons;
        [discriminate | by apply elem_of_nil in Hin].
Qed.

(** A token with the role "innkeeper" and a token without roles. *)
Lemma innkeeperLogin_role_gate_witness :
  Innkeeper.innkeeperLogin "innkeeper" (Returned [("token", JStr "t")])
    (Innkeeper.Claims (Some (Innkeeper.Realm (Some ["user"; "innkeeper"]))))
  = [ Innkeeper.LoginCall;
      Innkeeper.Reply 200 (Some (JObj [("token", JStr "t")])) ]
  ∧ Innkeeper.innkeeperLogin "innkeeper" (Returned [("token", JStr "t")])
      (Innkeeper.Claims (Some (Innkeeper.Realm None)))
    = [Innkeeper.Reply 403 None].
Proof.
  split.
  - apply (innkeeperLogin_role_gate "innkeeper"
             (Returned [("token", JStr "t")])
             (Innkeeper.Claims
                (Some (Innkeeper.Realm (Some ["user"; "innkeeper"]))))).
    left.
  - apply (innkeeperLogin_role_gate "innkeeper"
             (Returned [("token", JStr "t")])
             (Innkeeper.Claims (Some (Innkeeper.Realm None)))).
    intros [Heq | Hin]%elem_of_cons;
        [discriminate | by apply elem_of_nil in Hin].
Defined.

(** X11: the reservation route first logs in.  It creates the reservation
    only when the login returned, with the request body and the token of the
    login result, and it sends a response only when both calls returned: the
    created reservation with status 201.  A failure of either call goes to
    the next handler and nothing is sent. *)
Theorem innkeeperReservation_sequence
  (login : outcome (list (string * json)))
  (createReservation : gmap string json → option json → outcome json)
  (req_body : gmap string json) :
  (∀ body token,
     Innkeeper.ReservationCall body token
     ∈ Innkeeper.innkeeperReservation login createReservation req_body →
     body = req_body
     ∧ ∃ session, login = Returned session
                  ∧ token = Innkeeper.token_of session)
  ∧ (∀ status body,
       Innkeeper.Reply status body
       ∈ Innkeeper.innkeeperReservation login createReservation req_body →
       status = 201
       ∧ ∃ session result,
           login = Returned session
           ∧ createReservation req_body (Innkeeper.token_of session)
             = Returned result
           ∧ body = Some result)
  ∧ (∀ e,
       Innkeeper.Forward e
       ∈ Innkeeper.innkeeperReservation login createReservation req_body ↔
       login = Thrown e
       ∨ ∃ session, login = Returned session
                    ∧ createReservation req_body (Innkeeper.token_of session)
                      = Thrown e).
Proof.
  unfold Innkeeper.innkeeperReservation.
  destruct login as [session | e0].
  - destruct (createReservation req_body (Innkeeper.token_of session))
      as [result | e1] eqn:Hcreate.
    + split; [| split].
      * intros body token Hin. repeat apply elem_of_cons in Hin as [Hin | Hin];
          try discriminate; [| by apply elem_of_nil in Hin].
        injection Hin as -> ->. split; [done |]. by exists session.
      * intros status body Hin.
        repeat apply elem_of_cons in Hin as [Hin | Hin];
          try discriminate; [| by apply elem_of_nil in Hin].
        injection Hin as -> ->. split; [done |]. by exists session, result.
      * intros e. split.
        -- intros Hin. repeat apply elem_of_cons in Hin as [Hin | Hin];
             try discriminate. by apply elem_of_nil in Hin.
        -- intros [[=] | (s & [= <-] & Heq)]. rewrite Hcreate in Heq.
           discriminate.
    + split; [| split].
      * intros body token Hin. repeat apply elem_of_cons in Hin as [Hin | Hin];
          try discriminate; [| by apply elem_of_nil in Hin].
        injection Hin as -> ->. split; [done |]. by exists session.
      * intros status body Hin.
        repeat apply elem_of_cons in Hin as [Hin | Hin];
          try discriminate. by apply elem_of_nil in Hin.
      * intros e. split.
        -- intros Hin. repeat apply elem_of_cons in Hin as [Hin | Hin];
             try discriminate; [| by apply elem_of_nil in Hin].
           injection Hin as ->. right. by exists session.
        -- intros [[=] | (s & [= <-] & Heq)]. rewrite Hcreate in Heq.
           injection Heq as ->. do 2 right. left.
  - split; [| split].
    + intros body token Hin. repeat apply elem_of_cons in Hin as [Hin | Hin];
        try discriminate. by apply elem_of_nil in Hin.
    + intros status body Hin. repeat apply elem_of_cons in Hin as [Hin | Hin];
        try discriminate. by apply elem_of_nil in Hin.
    + intros e. split.
      * intros Hin. repeat apply elem_of_cons in Hin as [Hin | Hin];
          try discriminate; [| by apply elem_of_nil in Hin].
        injection Hin as ->. by left.
      * intros [[= ->] | (s & [=] & _)]. right. left.
Qed.

(** A login that returns a token and a reservation service that accepts. *)
Lemma innkeeperReservation_sequence_witness :
  Innkeeper.Reply 201 (Some (JStr "created"))
  ∈ Innkeeper.innkeeperReservation (Returned [("token", JStr "t")])
      (λ _ _, Returned (JStr "created")) ∅
  ∧ ∃ session,
      Returned [("token", JStr "t")] = Returned session
      ∧ Some (JStr "t") = Innkeeper.token_of session.
Proof.
  assert (Innkeeper.ReservationCall ∅ (Some (JStr "t"))
          ∈ Innkeeper.innkeeperReservation (Returned [("token", JStr "t")])
              (λ _ _, Returned (JStr "created")) ∅) as Hcall
    by (right; left).
  split; [do 2 right; left |].
  exact (proj2 (proj1 (innkeeperReservation_sequence
                         (Returned [("token", JStr "t")])
                         (λ _ _, Returned (JStr "created")) ∅)
                  ∅ (Some (JStr "t")) Hcall)).
Defined.

(** ** The dashboard *)

Section dashboard.

Import PgComponent.

Lemma formatKind_credential_iff (kind : Z) :
  formatKind kind = "Credential" ↔ kind = 2.
Proof.
  split; [| by intros ->].
  destruct (formatKind_fixed_or_other kind)
    as [[-> | [-> | [-> | [-> | ->]]]] | Hother]; try done.
  rewrite Hother.
  change ("Type " +:+ to_string kind)
    with (String "T" (String "y" (String "p" (String "e"
            (String " " (pretty kind)))))).
  discriminate.
Qed.

(** What countItemsByKind returns when its statement succeeds. *)
Lemma countItemsByKind_rows (p : pool) :
  fault p kinds_text [] = None →
  ∃ ks,
    ks ≡ₚ remove_dups (Item.kind <$> items (db p))
    ∧ (countItemsByKind p).2
      = Returned
          (format_kind_row
           <$> ((λ k, {| kind_of_row := k;
                         count_of_row :=
                           Z.of_nat
                             (length (filter (λ i, Item.kind i = k)
                                        (items (db p)))) |})
                <$> ks)).
Proof.
  intros Hfault.
  destruct (kinds_meaning_rows (db p)) as (ks & Hperm & _ & Hrows).
  exists ks. split; [done |].
  unfold countItemsByKind, pool_query. by rewrite Hfault, Hrows.
Qed.

(** Looking for the credential row among the formatted rows. *)
Lemma find_credential (size : Z → nat) (ks : list Z) :
  List.find DashboardView.is_credential
    (format_kind_row
     <$> ((λ k, {| kind_of_row := k; count_of_row := Z.of_nat (size k) |})
          <$> ks))
  = if decide (2 ∈ ks)
    then Some {| kind_label := "Credential";
                 kind_id := 2;
                 kind_count := Int (Z.of_nat (size 2)) |}
    else None.
Proof.
  induction ks as [| k ks IH]; [done |].
  rewrite !fmap_cons. cbn [List.find].
  destruct (decide (k = 2)) as [-> | Hne].
  - unfold DashboardView.is_credential, format_kind_row.
    cbn [kind_label kind_of_row count_of_row].
    rewrite bool_decide_true by done.
    rewrite decide_True by left. by rewrite parseInt_int8_text.
  - unfold DashboardView.is_credential at 1, format_kind_row at 1.
    cbn [kind_label kind_of_row count_of_row].
    rewrite bool_decide_false by (by rewrite formatKind_credential_iff).
    rewrite IH. destruct (decide (2 ∈ ks)) as [Hin | Hnotin].
    + by rewrite decide_True by (by right).
    + rewrite decide_False; [done |].
      by intros [? | ?]%elem_of_cons.
Qed.

Lemma credentials_present (all : list Item.t) :
  2 ∈ remove_dups (Item.kind <$> all)
  ↔ length (filter (λ i, Item.kind i = 2) all) ≠ 0%nat.
Proof.
  rewrite elem_of_remove_dups, list_elem_of_fmap. split.
  - intros (i & Hkind & Hi) Hlength.
    apply length_zero_iff_nil in Hlength.
    assert (i ∈ filter (λ i, Item.kind i = 2) all) as Hin
      by (by apply list_elem_of_filter).
    rewrite Hlength in Hin. by apply elem_of_nil in Hin.
  - intros Hlength.
    destruct (filter (λ i, Item.kind i = 2) all) as [| i rest] eqn:Hfilter;
      [done |].
    assert (i ∈ filter (λ i, Item.kind i = 2) all) as Hin
      by (rewrite Hfilter; left).
    apply list_elem_of_filter in Hin as [? ?]. eauto.
Qed.

End dashboard.

(** X12: what the dashboard shows for a table (when the summary statement
    succeeds and the dashboard receives the summary): the total is the number
    of items; when the table has items of kind 2 the status line is
    "Found c Credentials, n total items" and the card line "c verified
    credentials" is shown, with c the number of items of kind 2 and n the
    number of items; otherwise the status line is "Found n total items" and
    the card line is not shown. *)
Theorem dashboard_shows_counts (p : pool) :
  fault p PgComponent.kinds_text [] = None →
  ∃ received,
    (PgComponent.countItemsByKind p).2 = Returned received
    ∧ DashboardView.summary
        (DashboardView.fetchSummaryData (Returned received)
           DashboardView.initial) = received
    ∧ Dashboard.totalItems received = Int (Z.of_nat (length (items (db p))))
    ∧ DashboardView.apiStatus
        (DashboardView.fetchSummaryData (Returned received)
           DashboardView.initial)
      = (if decide (length (filter (λ i, Item.kind i = 2) (items (db p)))
                    = 0%nat)
         then "Found " +:+ pretty (Z.of_nat (length (items (db p))))
              +:+ " total items"
         else "Found "
              +:+ pretty
                    (Z.of_nat
                       (length (filter (λ i, Item.kind i = 2) (items (db p)))))
              +:+ " Credentials, "
              +:+ pretty (Z.of_nat (length (items (db p))))
              +:+ " total items")
    ∧ DashboardView.shows_verified
        (DashboardView.fetchSummaryData (Returned received)
           DashboardView.initial)
      = bool_decide
          (length (filter (λ i, Item.kind i = 2) (items (db p))) ≠ 0%nat)
    ∧ (length (filter (λ i, Item.kind i = 2) (items (db p))) ≠ 0%nat →
       DashboardView.verified_text
         (DashboardView.fetchSummaryData (Returned received)
            DashboardView.initial)
       = Some
           (pretty
              (Z.of_nat
                 (length (filter (λ i, Item.kind i = 2) (items (db p)))))
            +:+ " verified credentials")).
Proof.
  intros Hfault.
  destruct (countItemsByKind_rows p Hfault) as (ks & Hperm & Hrun).
  eexists. split; [exact Hrun |]. split; [done |].
  assert (Dashboard.totalItems
            (PgComponent.format_kind_row
             <$> ((λ k, {| PgComponent.kind_of_row := k;
                           PgComponent.count_of_row :=
                             Z.of_nat
                               (length (filter (λ i, Item.kind i = k)
                                          (items (db p)))) |})
                  <$> ks))
          = Int (Z.of_nat (length (items (db p))))) as Htotal.
  { unfold Dashboard.totalItems.
    rewrite (totalItems_formatted
               (λ k, length (filter (λ i, Item.kind i = k) (items (db p))))).
    rewrite Hperm, group_sizes_total; [done | apply NoDup_remove_dups |].
    intros i Hi. apply elem_of_remove_dups, list_elem_of_fmap. eauto. }
  split; [exact Htotal |].
  pose proof (find_credential
                (λ k, length (filter (λ i, Item.kind i = k) (items (db p))))
                ks) as Hfind.
  pose proof (credentials_present (items (db p))) as Hpresent.
  rewrite <-Hperm in Hpresent.
  split; [| split].
  - unfold DashboardView.fetchSummaryData.
    cbn [DashboardView.apiStatus]. rewrite Hfind, Htotal.
    destruct (decide (2 ∈ ks)) as [Hin | Hnotin].
    + rewrite decide_False by (by apply Hpresent). done.
    + rewrite decide_True; [done |].
      destruct (decide (length (filter (λ i, Item.kind i = 2) (items (db p)))
                        = 0%nat)); [done |].
      destruct Hnotin. by apply Hpresent.
  - unfold DashboardView.shows_verified, DashboardView.fetchSummaryData.
    cbn [DashboardView.summary].
    destruct (decide (2 ∈ ks)) as [Hin | Hnotin].
    + rewrite bool_decide_true by (by apply Hpresent).
      apply existsb_exists. eexists. split.
      * apply list_elem_of_In, list_elem_of_fmap. eexists. split; [done |].
        apply list_elem_of_fmap. exists 2. split; [done |]. exact Hin.
      * unfold PgComponent.format_kind_row, DashboardView.is_credential.
        cbn [PgComponent.kind_label PgComponent.kind_count
             PgComponent.kind_of_row PgComponent.count_of_row].
        rewrite parseInt_int8_text. rewrite bool_decide_true by done.
        cbn. apply Z.ltb_lt. apply Hpresent in Hin. lia.
    + rewrite bool_decide_false by (by rewrite <-Hpresent).
      apply not_true_is_false. intros Hex.
      apply existsb_exists in Hex as (item & Hitem & Hcred).
      apply list_elem_of_In, list_elem_of_fmap in Hitem as (r & -> & Hr).
      apply list_elem_of_fmap in Hr as (k & -> & Hk).
      apply andb_prop in Hcred as [Hcred _].
      apply bool_decide_eq_true, formatKind_credential_iff in Hcred.
      cbn in Hcred. by subst.
  - intros Hsome. unfold DashboardView.verified_text.
    unfold DashboardView.fetchSummaryData. cbn [DashboardView.summary].
    rewrite Hfind. rewrite decide_True by (by apply Hpresent). done.
Qed.

(** The dashboard of the sample wallet. *)
Lemma dashboard_shows_counts_witness :
  ∃ received,
    (PgComponent.countItemsByKind Sample.healthy).2 = Returned received
    ∧ DashboardView.apiStatus
        (DashboardView.fetchSummaryData (Returned received)
           DashboardView.initial)
      = "Found 3 Credentials, 6 total items"
    ∧ DashboardView.verified_text
        (DashboardView.fetchSummaryData (Returned received)
           DashboardView.initial)
      = Some "3 verified credentials".
Proof.
  destruct (dashboard_shows_counts Sample.healthy eq_refl)
    as (received & Hrun & _ & _ & Hstatus & _ & Hverified).
  exists received. split; [exact Hrun |].
  split; [exact Hstatus |]. apply Hverified. discriminate.
Defined.

(** X13: on any summary, when the card line for verified credentials is
    shown (some Credential row has a positive count), the row that the line
    reads exists: the template does not read the count of a missing row. *)
Theorem verified_line_guarded (this : DashboardView.data) :
  DashboardView.shows_verified this = true →
  ∃ text, DashboardView.verified_text this = Some text.
Proof.
  unfold DashboardView.shows_verified, DashboardView.verified_text.
  intros (item & Hitem & [Hcred _]%andb_prop)%existsb_exists.
  destruct (List.find DashboardView.is_credential
              (DashboardView.summary this)) as [found |] eqn:Hfind.
  - by eexists.
  - apply find_none with (x := item) in Hfind; [| done]. congruence.
Qed.

(** A summary with one credential row. *)
Lemma verified_line_guarded_witness :
  ∃ text,
    DashboardView.verified_text
      {| DashboardView.apiStatus := EmptyString;
         DashboardView.summary :=
           [PgComponent.KindSummary "Credential" 2 (Int 4)] |}
    = Some text.
Proof.
  apply (verified_line_guarded
           {| DashboardView.apiStatus := EmptyString;
              DashboardView.summary :=
                [PgComponent.KindSummary "Credential" 2 (Int 4)] |}).
  reflexivity.
Defined.

(** X14: every card of the dashboard gets exactly one of the five styles,
    chosen by the kind code behind its label: blue for Credential (2), green
    for Connection (1), purple for Key (4), yellow for Message (3), and gray
    for Proof (5) and for every unmapped kind. *)
Theorem card_class_by_kind (kind : Z) :
  DashboardView.card_class (PgComponent.formatKind kind)
  = [ match kind with
      | 2 => "bg-blue-50 border-blue-200"
      | 1 => "bg-green-50 border-green-200"
      | 4 => "bg-purple-50 border-purple-200"
      | 3 => "bg-yellow-50 border-yellow-200"
      | _ => "bg-gray-50 border-gray-200"
      end ].
Proof.
  destruct (formatKind_fixed_or_other kind)
    as [[-> | [-> | [-> | [-> | ->]]]] | Hother]; try reflexivity.
  assert (kind ≠ 1 ∧ kind ≠ 2 ∧ kind ≠ 3 ∧ kind ≠ 4) as (? & ? & ? & ?).
  { repeat split; intros ->; vm_compute in Hother; discriminate. }
  rewrite Hother.
  change ("Type " +:+ to_string kind)
    with (String "T" (String "y" (String "p" (String "e"
            (String " " (pretty kind)))))).
  unfold DashboardView.card_class.
  rewrite !bool_decide_false by discriminate.
  rewrite bool_decide_false.
  - destruct kind as [| q | q]; [done | | done].
    destruct q as [[[q | q |] | [q | q |] |] | [[q | q |] | [q | q |] |] |];
      done.
  - intros Hin. repeat apply elem_of_cons in Hin as [Hin | Hin];
      try discriminate. by apply elem_of_nil in Hin.
Qed.
